(** * feed-control: the Best Buy provider and the phase-2 feed driver

    A shallow embedding of

      - [backend/bestbuy_provider_python.py]  (class [BestBuyProviderPython])
      - [backend/python_files/model_phase2.py] (the Amazon feed submission)

    Python dictionaries with a fixed set of keys are records, Python [int]
    is [Z], a price (a Python [float]) is a rational [Q] (every finite float
    is one; the code only compares prices with [0], [5] and [10000] and with
    each other), strings are [string].  Whatever the program obtains from the
    network, the data base or the thread scheduler is an explicit argument
    (an oracle), so that a statement "for every behaviour of the remote side"
    is a universally quantified one.  Python exceptions are the [Raise]
    results of a small error monad; [try]/[except Exception] is [try_except]. *)

From Stdlib Require Import ZArith QArith List String Ascii Bool Lia Lqa Permutation.
Import ListNotations.

Local Open Scope string_scope.
Local Open Scope list_scope.
Local Open Scope Z_scope.

(* ================================================================== *)
(** ** Python runtime: exceptions, ranges, slices *)
(* ================================================================== *)

Module Py.

Inductive ExnKind :=
| Timeout            (* requests.exceptions.Timeout *)
| RequestException   (* any other requests failure *)
| ValueError
| TypeError
| AttributeError
| KeyError
| ZeroDivisionError
| UnboundLocalError
| OverflowError
| DatabaseError.     (* psycopg2.Error *)

Record Exn := MkExn { exn_kind : ExnKind; exn_str : string }.

Inductive Exc (A : Type) :=
| Ok (a : A)
| Raise (e : Exn).
Arguments Ok {A} a.
Arguments Raise {A} e.

Definition bind {A B} (c : Exc A) (k : A -> Exc B) : Exc B :=
  match c with
  | Ok a => k a
  | Raise e => Raise e
  end.

(** [try: c  except Exception as e: h e] *)
Definition try_except {A} (c : Exc A) (h : Exn -> Exc A) : Exc A :=
  match c with
  | Ok a => Ok a
  | Raise e => h e
  end.

Definition raises {A} (c : Exc A) : bool :=
  match c with Ok _ => false | Raise _ => true end.

(** [range(start, stop, step)] *)
Definition range (start stop step : Z) : Exc (list Z) :=
  if step =? 0 then
    Raise (MkExn ValueError "range() arg 3 must not be zero")
  else
    let n := if 0 <? step
             then (stop - start + step - 1) / step
             else (start - stop - step - 1) / (- step) in
    Ok (map (fun k => start + Z.of_nat k * step) (seq 0 (Z.to_nat n))).

(** [range(start, stop)] *)
Definition range2 (start stop : Z) : list Z :=
  map (fun k => start + Z.of_nat k) (seq 0 (Z.to_nat (stop - start))).

(** A slice bound as Python normalises it against [len]. *)
Definition slice_index (len i : Z) : Z :=
  if i <? 0 then Z.max 0 (len + i) else Z.min i len.

(** [l[start:stop]] *)
Definition slice {A} (l : list A) (start stop : Z) : list A :=
  let len := Z.of_nat (List.length l) in
  let s := slice_index len start in
  let e := slice_index len stop in
  firstn (Z.to_nat (e - s)) (skipn (Z.to_nat s) l).

(** [int(x)] of a number: truncation towards zero. *)
Definition int_of (q : Q) : Z := Z.quot (Qnum q) (Zpos (Qden q)).

(** [s.lower()], on ASCII text. *)
Definition lower_ascii (c : ascii) : ascii :=
  let n := nat_of_ascii c in
  if (Nat.leb 65 n && Nat.leb n 90)%bool then ascii_of_nat (n + 32) else c.

Fixpoint lower (s : string) : string :=
  match s with
  | EmptyString => EmptyString
  | String c s' => String (lower_ascii c) (lower s')
  end.

(** [x or d] on an optional string: [None] and [''] are both falsy. *)
Definition str_or (x : option string) (d : string) : string :=
  match x with
  | Some s => if String.eqb s "" then d else s
  | None => d
  end.

End Py.

Notation "x <- c ;; k" := (Py.bind c (fun x => k))
  (at level 61, c at next level, right associativity).

(** Comparisons of prices, as booleans. *)
Definition Qgtb (a b : Q) : bool := negb (Qle_bool a b).
Definition Qltb (a b : Q) : bool := negb (Qle_bool b a).

(* ================================================================== *)
(** ** bestbuy_provider_python.py *)
(* ================================================================== *)

Module Provider.

Import Py.

(** The [config] the provider is built from ([__init__]). *)
Record Config := {
  stock_level : Z;
  handling_time_omd : Z;
  provider_specific_handling_time : Z;
  update_flag_value : Z
}.

(** [config.get(key, default)] of [__init__], on an optional entry. *)
Definition config_get (entry : option Z) (default : Z) : Z :=
  match entry with Some v => v | None => default end.

Definition default_config : Config :=
  {| stock_level := config_get None 20;
     handling_time_omd := config_get None 1;
     provider_specific_handling_time := config_get None 3;
     update_flag_value := config_get None 4 |}.

(** The dictionary [fetch_product_data] returns. *)
Record RemoteAnswer := {
  sku : string;
  price : Q;
  brand : string;
  quantity : Z;
  availability : string;
  handlingTime : Z
}.

(** *** What the product API can do on one request *)

(** A key of a JSON object: missing, of the type the code expects, or of
    another type (on which the code's conversion raises). *)
Inductive JField (A : Type) :=
| Absent
| Present (a : A)
| IllTyped.
Arguments Absent {A}.
Arguments Present {A} a.
Arguments IllTyped {A}.

(** [data['data']]: the API's own fields.  [api_quantity] is there because
    the API reports it; the code never reads it. *)
Record ApiData := {
  api_availability : JField string;
  api_price : JField Q;
  api_brand : option string;
  api_quantity : option Z
}.

(** The same fields with another reported quantity. *)
Definition with_api_quantity (d : ApiData) (q : option Z) : ApiData :=
  {| api_availability := api_availability d;
     api_price := api_price d;
     api_brand := api_brand d;
     api_quantity := q |}.

Inductive Body :=
| NotJson                                   (* response.json() raises *)
| NotAnObject                               (* a JSON value without .get *)
| Json (success : bool) (data : JField ApiData).
    (* [data]: Absent = missing or falsy, IllTyped = truthy but no dict *)

Inductive HttpResult :=
| HTimeout                                  (* no answer within 30 s *)
| HFailure (msg : string)                   (* any other exception *)
| HResponse (status_code : Z) (body : Body).

Definition requests_get (r : HttpResult) : Exc (Z * Body) :=
  match r with
  | HTimeout => Raise (MkExn Timeout "timeout")
  | HFailure msg => Raise (MkExn RequestException msg)
  | HResponse c b => Ok (c, b)
  end.

Definition response_json (b : Body) : Exc Body :=
  match b with
  | NotJson => Raise (MkExn ValueError "Expecting value")
  | _ => Ok b
  end.

Section WithConfig.

Variable self : Config.

(** The dictionary built at lines 105-112 (and again at 153-160). *)
Definition fallback_answer (sku : string) : RemoteAnswer :=
  {| sku := sku;
     price := 0;
     brand := "";
     quantity := 0;
     availability := "outOfStock";
     handlingTime :=
       handling_time_omd self + provider_specific_handling_time self |}.

(** Lines 77-92: the transformation of the API's fields. *)
Definition transform (sku : string) (api_data : ApiData)
  : Exc RemoteAnswer :=
  av <- match api_availability api_data with
        | Absent => Ok ""%string
        | Present s => Ok s
        | IllTyped =>
            Raise (MkExn AttributeError "object has no attribute 'lower'")
        end ;;
  let is_in_stock := String.eqb (lower av) "instock" in
  price <- match api_price api_data with
           | Absent => Ok 0%Q
           | Present q => Ok q
           | IllTyped =>
               Raise (MkExn TypeError "float() argument must be a number")
           end ;;
  let brand := str_or (api_brand api_data) "" in
  Ok {| sku := sku;
        price := price;
        brand := brand;
        quantity := if is_in_stock then stock_level self else 0;
        availability := if is_in_stock then "inStock" else "outOfStock";
        handlingTime :=
          handling_time_omd self + provider_specific_handling_time self |}.

(** The answer built from the API's fields, as [transform] returns it. *)
Definition transformed (sku : string) (av : string) (p : Q) (b : option string)
  : RemoteAnswer :=
  let is_in_stock := String.eqb (lower av) "instock" in
  {| sku := sku;
     price := p;
     brand := str_or b "";
     quantity := if is_in_stock then stock_level self else 0;
     availability := if is_in_stock then "inStock" else "outOfStock";
     handlingTime :=
       handling_time_omd self + provider_specific_handling_time self |}.

(** The [try] block of [fetch_product_data]: [Ok (Some result)] is the
    [return result] of line 92, [Ok None] falls out of the block after
    an error was logged. *)
Definition fetch_try (sku : string) (r : HttpResult)
  : Exc (option RemoteAnswer) :=
  response <- requests_get r ;;
  let '(status_code, body) := response in
  if status_code =? 200 then
    data <- response_json body ;;
    match data with
    | NotJson => Ok None
    | NotAnObject =>
        Raise (MkExn AttributeError "object has no attribute 'get'")
    | Json success d =>
        match success, d with
        | true, Present api_data =>
            result <- transform sku api_data ;;
            Ok (Some result)
        | true, IllTyped =>
            Raise (MkExn AttributeError "object has no attribute 'get'")
        | _, _ => Ok None
        end
    end
  else Ok None.

(** [fetch_product_data]: both [except] clauses only log, and every path
    that does not return from the [try] block reaches line 105. *)
Definition fetch_product_data (sku : string) (r : HttpResult)
  : Exc RemoteAnswer :=
  got <- try_except (fetch_try sku r) (fun _ => Ok None) ;;
  match got with
  | Some result => Ok result
  | None => Ok (fallback_answer sku)
  end.

End WithConfig.

(** A well-formed 200 answer of the product API. *)
Definition api_answer (av : string) (p : Q) (b : string) : HttpResult :=
  HResponse 200
    (Json true
       (Present {| api_availability := Present av;
                   api_price := Present p;
                   api_brand := Some b;
                   api_quantity := None |})).

(** *** The validator *)

Inductive Severity := low | medium | high.

Inductive Reason :=
| NoReason
| OutOfStockButPriced (p : Q)      (* "Suspicious: outOfStock but price $p" *)
| OutOfStockZero                   (* "... outOfStock with $0 ..." *)
| UnusuallyLow (p : Q)
| UnusuallyHigh (p : Q).

Record Analysis := {
  is_valid : bool;
  reason : Reason;
  severity : Severity
}.

Definition analyze_response (product_data : RemoteAnswer)
    (sku : string) (attempt : Z) : Analysis :=
  let price := price product_data in
  let availability := availability product_data in
  if (String.eqb availability "outOfStock" && Qgtb price 0)%bool then
    {| is_valid := false; reason := OutOfStockButPriced price;
       severity := high |}
  else if (Qeq_bool price 0 && String.eqb availability "outOfStock")%bool then
    {| is_valid := false; reason := OutOfStockZero; severity := medium |}
  else if (Qltb 0 price && Qltb price 5)%bool then
    {| is_valid := false; reason := UnusuallyLow price; severity := medium |}
  else if Qgtb price 10000 then
    {| is_valid := false; reason := UnusuallyHigh price; severity := low |}
  else
    {| is_valid := true; reason := NoReason; severity := low |}.

(** [is_better_response(current, previous)] *)
Definition is_better_response (current : RemoteAnswer)
    (previous : option RemoteAnswer) : bool :=
  match previous with
  | None => true
  | Some previous =>
      if (Qgtb (price current) 0 && Qeq_bool (price previous) 0)%bool
      then true
      else if (String.eqb (availability current) "inStock"
               && String.eqb (availability previous) "outOfStock")%bool
      then true
      else false
  end.

Definition severity_multiplier (s : Severity) : Q :=
  match s with
  | low => 1
  | medium => 3 # 2
  | high => 2
  end.

(** [calculate_retry_delay(attempt, severity)], in milliseconds. *)
Definition calculate_retry_delay (attempt : Z) (s : Severity) : Z :=
  let base_delay := 1000 in
  let multiplier := attempt in
  int_of (inject_Z (base_delay * multiplier) * severity_multiplier s).

(** *** The retrying fetcher *)

(** The local variables of [fetch_product_data_with_retry] that live across
    iterations, and the delays handed to [time.sleep] so far (milliseconds,
    oldest first). *)
Record LoopState := {
  last_valid_response : option RemoteAnswer;
  product_data : option RemoteAnswer;       (* None: not assigned yet *)
  slept : list Z
}.

Definition initial_state : LoopState :=
  {| last_valid_response := None; product_data := None; slept := [] |}.

(** How one iteration ends: it goes on to the next attempt or returns. *)
Inductive Step :=
| Next (st : LoopState)
| Return (a : RemoteAnswer) (st : LoopState).

(** [last_valid_response or product_data]: a dictionary with keys is truthy. *)
Definition or_else (last : option RemoteAnswer) (pd : RemoteAnswer)
  : RemoteAnswer :=
  match last with Some a => a | None => pd end.

Section Retry.

Variable self : Config.
Variable sku : string.
Variable max_retries : Z.

(** Lines 120-142, the [try] block of one iteration. *)
Definition attempt_try (attempt : Z) (r : HttpResult) (st : LoopState)
  : Exc Step :=
  pd <- fetch_product_data self sku r ;;
  let analysis := analyze_response pd sku attempt in
  if is_valid analysis then
    Ok (Return pd {| last_valid_response := last_valid_response st;
                     product_data := Some pd;
                     slept := slept st |})
  else
    let last :=
      if is_better_response pd (last_valid_response st)
      then Some pd else last_valid_response st in
    if attempt <? max_retries then
      let delay := calculate_retry_delay attempt (severity analysis) in
      Ok (Next {| last_valid_response := last;
                  product_data := Some pd;
                  slept := slept st ++ [delay] |})
    else
      Ok (Return (or_else last pd)
                 {| last_valid_response := last;
                    product_data := Some pd;
                    slept := slept st |}).

(** Lines 144-160, the [except Exception] handler of one iteration. *)
Definition attempt_except (attempt : Z) (st : LoopState) (e : Exn)
  : Exc Step :=
  if attempt <? max_retries then
    let delay := calculate_retry_delay attempt high in
    Ok (Next {| last_valid_response := last_valid_response st;
                product_data := product_data st;
                slept := slept st ++ [delay] |})
  else
    Ok (Return (fallback_answer self sku) st).

Definition attempt_body (attempt : Z) (r : HttpResult) (st : LoopState)
  : Exc Step :=
  try_except (attempt_try attempt r st) (attempt_except attempt st).

(** The [for] loop over the attempts that are left, and line 162 after it.
    [remote attempt] is what the product API does on that attempt. *)
Fixpoint retry_loop (remote : Z -> HttpResult) (attempts : list Z)
    (st : LoopState) : Exc (RemoteAnswer * LoopState) :=
  match attempts with
  | [] =>
      match last_valid_response st, product_data st with
      | Some a, _ => Ok (a, st)
      | None, Some pd => Ok (pd, st)
      | None, None =>
          Raise (MkExn UnboundLocalError
                   "cannot access local variable 'product_data'")
      end
  | attempt :: rest =>
      step <- attempt_body attempt (remote attempt) st ;;
      match step with
      | Return a st' => Ok (a, st')
      | Next st' => retry_loop remote rest st'
      end
  end.

(** The loop states after each iteration that ran, in order. *)
Fixpoint retry_states (remote : Z -> HttpResult) (attempts : list Z)
    (st : LoopState) : list LoopState :=
  match attempts with
  | [] => []
  | attempt :: rest =>
      match attempt_body attempt (remote attempt) st with
      | Ok (Next st') => st' :: retry_states remote rest st'
      | Ok (Return _ st') => [st']
      | Raise _ => []
      end
  end.

Definition fetch_product_data_with_retry (remote : Z -> HttpResult)
  : Exc (RemoteAnswer * LoopState) :=
  retry_loop remote (range2 1 (max_retries + 1)) initial_state.

(** The best candidate before the first attempt and after every attempt
    that ran. *)
Definition candidates (remote : Z -> HttpResult)
  : list (option RemoteAnswer) :=
  map last_valid_response
      (initial_state
         :: retry_states remote (range2 1 (max_retries + 1)) initial_state).

End Retry.

(** Neighbours of a list, as pairs. *)
Fixpoint consecutive {A} (l : list A) : list (A * A) :=
  match l with
  | x :: ((y :: _) as tl) => (x, y) :: consecutive tl
  | _ => []
  end.

(** *** The reconciliation writer *)

(** The row [cursor.fetchone()] returns; a NULL column is [None]. *)
Record Row := {
  supplier_price : option Q;
  row_quantity : option Z;
  row_availability : option string;
  row_brand : option string;
  lead_time : option Z;
  lead_time_2 : option Z;
  handling_time_amz : option Z
}.

(** The statements [update_product_in_db] sends.  Both UPDATEs also set
    [last_update] to the current time. *)
Inductive SqlCommand :=
| SelectProduct (sku : string)
| UpdateLastUpdate (sku : string)
| UpdateProduct (supplier_price : Q) (quantity : Z)
    (availability brand : string)
    (lead_time lead_time_2 handling_time_amz : Z)
    (atualizado : Z) (sku : string).

(** What the data base does during one call: each step may raise. *)
Record DbBehaviour := {
  on_cursor : Exc unit;
  on_select : Exc (option Row);
  on_touch : Exc unit;
  on_update : Exc N                  (* cursor.rowcount after the UPDATE *)
}.

Inductive Status := updated | no_update | failed.

Record WriteResult := {
  status : Status;
  message : option string
}.

(** [x or 0] on numbers, [x or ''] on strings. *)
Definition q_or0 (x : option Q) : Q := match x with Some q => q | None => 0 end.
Definition z_or0 (x : option Z) : Z := match x with Some z => z | None => 0 end.

Definition has_changes (self : Config) (current_data : Row)
    (product_data : RemoteAnswer) : bool :=
  (negb (Qeq_bool (q_or0 (supplier_price current_data)) (price product_data))
   || negb (z_or0 (row_quantity current_data) =? quantity product_data)
   || negb (String.eqb (str_or (row_availability current_data) "")
                       (availability product_data))
   || negb (String.eqb (str_or (row_brand current_data) "")
                       (brand product_data))
   || negb (z_or0 (lead_time current_data) =? handling_time_omd self)
   || negb (z_or0 (lead_time_2 current_data)
              =? provider_specific_handling_time self)
   || negb (z_or0 (handling_time_amz current_data)
              =? handlingTime product_data))%bool.

(** No compared field differs. *)
Definition fields_agree (self : Config) (current_data : Row)
    (product_data : RemoteAnswer) : Prop :=
  (q_or0 (supplier_price current_data) == price product_data)%Q /\
  z_or0 (row_quantity current_data) = quantity product_data /\
  str_or (row_availability current_data) "" = availability product_data /\
  str_or (row_brand current_data) "" = brand product_data /\
  z_or0 (lead_time current_data) = handling_time_omd self /\
  z_or0 (lead_time_2 current_data) = provider_specific_handling_time self /\
  z_or0 (handling_time_amz current_data) = handlingTime product_data.

Definition failed_with (msg : string) : WriteResult :=
  {| status := failed; message := Some msg |}.

Definition full_update (self : Config) (product_data : RemoteAnswer)
  : SqlCommand :=
  UpdateProduct (price product_data) (quantity product_data)
    (availability product_data) (brand product_data)
    (handling_time_omd self) (provider_specific_handling_time self)
    (handlingTime product_data) (update_flag_value self) (sku product_data).

(** The [try] block of [update_product_in_db]: the statements sent, and how
    the block ends. *)
Definition update_try (self : Config) (db : DbBehaviour)
    (product_data : RemoteAnswer) : list SqlCommand * Exc WriteResult :=
  let sku := sku product_data in
  match on_cursor db with
  | Raise e => ([], Raise e)
  | Ok _ =>
      match on_select db with
      | Raise e => ([SelectProduct sku], Raise e)
      | Ok None =>
          ([SelectProduct sku],
           Ok {| status := failed; message := Some "Product not found" |})
      | Ok (Some current_data) =>
          if negb (has_changes self current_data product_data) then
            match on_touch db with
            | Raise e => ([SelectProduct sku; UpdateLastUpdate sku], Raise e)
            | Ok _ =>
                ([SelectProduct sku; UpdateLastUpdate sku],
                 Ok {| status := no_update; message := None |})
            end
          else
            let cmds := [SelectProduct sku; full_update self product_data] in
            match on_update db with
            | Raise e => (cmds, Raise e)
            | Ok rowcount =>
                if (rowcount =? 0)%N then
                  (cmds,
                   Ok {| status := failed;
                         message := Some "No rows updated" |})
                else (cmds, Ok {| status := updated; message := None |})
            end
      end
  end.

Definition update_product_in_db (self : Config) (db : DbBehaviour)
    (product_data : RemoteAnswer) : list SqlCommand * Exc WriteResult :=
  let '(cmds, r) := update_try self db product_data in
  (cmds,
   try_except r
     (fun e => Ok {| status := failed; message := Some (exn_str e) |})).

(** *** The batch runner *)

Record Report := {
  total_processed : Z;
  success_count : Z;
  updated_count : Z;
  failed_count : Z;
  results : list WriteResult
}.

(** What [process_products] does to the outside, in program order. *)
Inductive Event :=
| Reconciled (product_data : RemoteAnswer) (cmds : list SqlCommand)
| Slept (seconds : Z).

Record BatchState := {
  results_so_far : list WriteResult;
  db_calls : nat;
  events : list Event
}.

Definition len {A} (l : list A) : Z := Z.of_nat (List.length l).

(** [future.result()] for every future, in the order given. *)
Fixpoint collect {A} (futures : list (Exc A)) : Exc (list A) :=
  match futures with
  | [] => Ok []
  | f :: rest => a <- f ;; l <- collect rest ;; Ok (a :: l)
  end.

Definition is_status (s : Status) (r : WriteResult) : bool :=
  match s, status r with
  | updated, updated | no_update, no_update | failed, failed => true
  | _, _ => false
  end.

Definition count_if {A} (f : A -> bool) (l : list A) : Z :=
  len (filter f l).

Section Batch.

Variable self : Config.
(** What the product API does for a SKU on a given attempt. *)
Variable remote : string -> Z -> HttpResult.
(** The order in which the futures of one window complete. *)
Variable as_completed : forall A : Type, list A -> list A.
(** What the data base does during the n-th call of the writer. *)
Variable db : nat -> DbBehaviour.
Variable batch_size max_concurrent : Z.

(** Lines 343-345: one sequential write. *)
Definition write_one (acc : list WriteResult * BatchState)
    (product_data : RemoteAnswer) : Exc (list WriteResult * BatchState) :=
  let '(batch_results, st) := acc in
  let '(cmds, r) := update_product_in_db self (db (db_calls st)) product_data in
  result <- r ;;
  Ok (batch_results ++ [result],
      {| results_so_far := results_so_far st;
         db_calls := S (db_calls st);
         events := events st ++ [Reconciled product_data cmds] |}).

Fixpoint write_all (products_data : list RemoteAnswer)
    (acc : list WriteResult * BatchState)
  : Exc (list WriteResult * BatchState) :=
  match products_data with
  | [] => Ok acc
  | pd :: rest => acc' <- write_one acc pd ;; write_all rest acc'
  end.

(** Lines 330-347: one concurrency window. *)
Definition process_window (concurrent_batch : list string) (st : BatchState)
  : Exc BatchState :=
  if max_concurrent <=? 0 then
    Raise (MkExn ValueError "max_workers must be greater than 0")
  else
    let api_futures :=
      map (fun sku =>
             r <- fetch_product_data_with_retry self sku 3 (remote sku) ;;
             Ok (fst r))
          concurrent_batch in
    products_data <- collect (as_completed _ api_futures) ;;
    acc <- write_all products_data ([], st) ;;
    let '(batch_results, st') := acc in
    Ok {| results_so_far := results_so_far st' ++ batch_results;
          db_calls := db_calls st';
          events := events st' |}.

Definition sleep (seconds : Z) (st : BatchState) : BatchState :=
  {| results_so_far := results_so_far st;
     db_calls := db_calls st;
     events := events st ++ [Slept seconds] |}.

(** Lines 324-351: the windows of one batch. *)
Fixpoint window_loop (batch : list string) (js : list Z) (st : BatchState)
  : Exc BatchState :=
  match js with
  | [] => Ok st
  | j :: rest =>
      let concurrent_batch := slice batch j (j + max_concurrent) in
      st1 <- process_window concurrent_batch st ;;
      let st2 :=
        if j + max_concurrent <? len batch then sleep 1 st1 else st1 in
      window_loop batch rest st2
  end.

(** Lines 317-356: the batches. *)
Fixpoint batch_loop (skus : list string) (starts : list Z) (st : BatchState)
  : Exc BatchState :=
  match starts with
  | [] => Ok st
  | i :: rest =>
      let batch := slice skus i (i + batch_size) in
      js <- range 0 (len batch) max_concurrent ;;
      st1 <- window_loop batch js st ;;
      let st2 := if i + batch_size <? len skus then sleep 2 st1 else st1 in
      batch_loop skus rest st2
  end.

Definition process_products (skus : list string)
  : Exc (Report * list Event) :=
  starts <- range 0 (len skus) batch_size ;;
  st <- batch_loop skus starts
          {| results_so_far := []; db_calls := 0%nat; events := [] |} ;;
  let results := results_so_far st in
  Ok ({| total_processed := len results;
         success_count :=
           count_if (fun r => is_status updated r || is_status no_update r)%bool
                    results;
         updated_count := count_if (is_status updated) results;
         failed_count := count_if (is_status failed) results;
         results := results |},
      events st).

End Batch.

(** The consecutive groups of [size] elements the two loops cut a list
    into: [l[i:i + size]] for [i] in [range(0, len(l), size)]. *)
Definition chunks {A} (l : list A) (size : Z) : list (list A) :=
  match range 0 (len l) size with
  | Ok starts => map (fun i => slice l i (i + size)) starts
  | Raise _ => []
  end.

(** The SKUs of [test_python_provider]. *)
Definition test_skus : list string :=
  ["6569319"; "6583949"; "6577453"; "6529313";
   "6519664"; "6442037"; "6568259"; "6537630"].

(** A data base that has no row for any SKU. *)
Definition db_without_rows : DbBehaviour :=
  {| on_cursor := Ok tt;
     on_select := Ok None;
     on_touch := Ok tt;
     on_update := Ok 0%N |}.

(** The SKUs handed to the writer, in the order of the calls. *)
Definition reconciled_skus (evs : list Event) : list string :=
  flat_map (fun e => match e with
                     | Reconciled pd _ => [sku pd]
                     | Slept _ => []
                     end) evs.

End Provider.

(* ================================================================== *)
(** ** python_files/model_phase2.py *)
(* ================================================================== *)

Module Phase2.

Import Py.

Definition len {A} (l : list A) : Z := Z.of_nat (List.length l).

(** The global [AMAZON_CONFIG]. *)
Record AmazonConfig := {
  seller_id : string;
  marketplace_id : string;
  client_id : string;
  client_secret : string;
  refresh_token : string
}.

(** A row of the extraction: [(sku2, handling_time_amz, quantity)]. *)
Definition FeedRow : Type := string * Z * Z.

Record Message := {
  messageId : Z;
  operationType : string;
  sku : string;
  productType : string;
  fulfillment_channel_code : string;
  quantity : Z;
  lead_time_to_ship_max_days : Z
}.

Record Header := {
  sellerId : string;
  version : string;
  issueLocale : string
}.

Record Feed := {
  header : Header;
  messages : list Message
}.

(** A header value that may be missing or not a number. *)
Inductive HeaderValue :=
| NoHeader
| HeaderInt (n : Z)
| HeaderText.

(** What one HTTP call of [requests_retry_session()] does: it raises, or
    answers with a status, a [Retry-After] header and a body whose decoding
    ([response.json()] and the field the caller reads) may raise too. *)
Inductive Http (B : Type) :=
| HttpRaise (e : Exn)
| HttpResponse (status_code : Z) (retry_after : HeaderValue) (json : Exc B).
Arguments HttpRaise {B} e.
Arguments HttpResponse {B} status_code retry_after json.

(** [int(response.headers.get('Retry-After', default))] *)
Definition header_int (h : HeaderValue) (default : Z) : Exc Z :=
  match h with
  | NoHeader => Ok default
  | HeaderInt n => Ok n
  | HeaderText => Raise (MkExn ValueError "invalid literal for int()")
  end.

(** The longest sleep [time.sleep] takes, in whole seconds: it converts
    its argument to a signed 64-bit count of nanoseconds. *)
Definition max_sleep_seconds : Z := 9223372036.

(** [time.sleep(seconds)] inside a [try] block, for an integer argument: a
    negative one raises [ValueError], one that does not fit the 64-bit
    count of nanoseconds raises [OverflowError]. *)
Definition checked_sleep (seconds : Z) : Exc Z :=
  if seconds <? 0 then
    Raise (MkExn ValueError "sleep length must be non-negative")
  else if max_sleep_seconds <? seconds then
    Raise (MkExn OverflowError "timestamp too large to convert to C PyTime_t")
  else Ok seconds.

(** The body of the feed-status answer. *)
Record FeedStatus := {
  processingStatus : option string;
  resultFeedDocumentId : option string        (* Some: the key is there *)
}.

(** The body of the create-document answer. *)
Record FeedDocument := {
  feedDocumentId : option string;
  url : option string
}.

(** What the data base does during one use of a pooled connection. *)
Record DbSession (A : Type) := {
  connection : bool;                  (* get_db_connection() gave one *)
  execute : Exc A;                    (* the statement (and the commit) *)
  release : Exc unit                  (* return_db_connection(conn) *)
}.
Arguments connection {A} d.
Arguments execute {A} d.
Arguments release {A} d.

(** What the marketplace does while one slice is submitted. *)
Record SliceWorld := {
  create_document_response : Http (option FeedDocument);
  upload_response : Http unit;
  submit_responses : Z -> Http (option string);     (* by attempt, from 0 *)
  poll_responses : Z -> Http FeedStatus             (* by attempt, from 1 *)
}.

Record World := {
  amazon_credentials : option AmazonConfig;   (* get_amazon_credentials() *)
  token_response : Exc (option string);       (* the token exchange *)
  slice_world : Z -> SliceWorld;              (* by batch_num *)
  extract_db : DbSession (list FeedRow);
  reset_db : DbSession unit
}.

(** What phase 2 does to the outside, in program order. *)
Inductive Event :=
| SliceStarted (batch_num : Z) (batch_data : list FeedRow)
| FeedSaved (batch_num : Z) (feed : Feed)
| Slept (seconds : Z)
| ReportRequested (result_feed_document_id : string)
| FlagReset.

(** The line [run_phase2] logs about the phase. *)
Inductive PhaseLog := PhaseSucceeded | PhaseFailed | PhaseError.

Definition truthy (s : option string) : option string :=
  match s with
  | Some x => if String.eqb x "" then None else Some x
  | None => None
  end.

Definition status_is (s : option string) (name : string) : bool :=
  match s with Some x => String.eqb x name | None => false end.

(** [extract_updated_data_phase2] *)
Definition extract_updated_data_phase2 (db : DbSession (list FeedRow))
  : Exc (option (list FeedRow)) :=
  if negb (connection db) then Ok None
  else
    let result :=
      match execute db with
      | Ok [] => None
      | Ok rows => Some rows
      | Raise _ => None
      end in
    _ <- release db ;;
    Ok result.

(** [reset_updated_flag] *)
Definition reset_updated_flag (db : DbSession unit) : list Event * Exc bool :=
  if negb (connection db) then ([], Ok false)
  else
    let '(evs, result) :=
      match execute db with
      | Ok _ => ([FlagReset], true)
      | Raise _ => ([], false)
      end in
    (evs, _ <- release db ;; Ok result).

Fixpoint build_messages (i : Z) (data : list FeedRow) : list Message :=
  match data with
  | [] => []
  | (sku2, handling_time_amz, quantity) :: rest =>
      {| messageId := i;
         operationType := "PARTIAL_UPDATE";
         sku := sku2;
         productType := "PRODUCT";
         fulfillment_channel_code := "DEFAULT";
         quantity := quantity;
         lead_time_to_ship_max_days := handling_time_amz |}
      :: build_messages (i + 1) rest
  end.

Definition build_feed (AMAZON_CONFIG : AmazonConfig) (data : list FeedRow)
  : Feed :=
  {| header := {| sellerId := seller_id AMAZON_CONFIG;
                  version := "2.0";
                  issueLocale := "en_US" |};
     messages := build_messages 1 data |}.

(** [create_feed_document] *)
Definition create_feed_document (resp : Http (option FeedDocument))
  : option FeedDocument :=
  match resp with
  | HttpRaise _ => None
  | HttpResponse status_code _ json =>
      if status_code =? 201 then
        match json with
        | Ok feed_document => feed_document
        | Raise _ => None
        end
      else None
  end.

(** [upload_feed_to_s3]: [requests] raises on a URL that is [None]. *)
Definition upload_feed_to_s3 (upload_url : option string) (resp : Http unit)
  : bool :=
  match upload_url with
  | None => false
  | Some _ =>
      match resp with
      | HttpRaise _ => false
      | HttpResponse status_code _ _ => status_code =? 200
      end
  end.

(** [get_sp_api_access_token]: the token, and the global it assigns. *)
Definition get_sp_api_access_token (w : World) (AMAZON_CONFIG : AmazonConfig)
  : option string * AmazonConfig :=
  match amazon_credentials w with
  | None => (None, AMAZON_CONFIG)
  | Some amazon_creds =>
      (match token_response w with
       | Ok token => truthy token
       | Raise _ => None
       end, amazon_creds)
  end.

Section Constants.

(** Constants of the module that the file does not define. *)
Variable MAX_RETRIES : Z.
Variable RETRY_DELAY_SECONDS : Z.
Variable STATUS_CHECK_INTERVAL : Z.
(** The structural validation of a feed, defined elsewhere. *)
Variable validar_feed_json : Feed -> Exc bool.

(** [create_inventory_feed_phase2] *)
Definition create_inventory_feed_phase2 (AMAZON_CONFIG : AmazonConfig)
    (data : list FeedRow) : option Feed :=
  let feed := build_feed AMAZON_CONFIG data in
  match validar_feed_json feed with
  | Ok true => Some feed
  | Ok false => None
  | Raise _ => None
  end.

(** How one iteration of [enviar_feed] ends. *)
Inductive SubmitStep :=
| SubmitReturn (feed_id : option string)
| SubmitContinue (slept : list Z).

Definition submit_try (attempt : Z) (resp : Http (option string))
  : Exc SubmitStep :=
  match resp with
  | HttpRaise e => Raise e
  | HttpResponse status_code retry_after json =>
      if status_code =? 202 then
        feed_id <- json ;;
        Ok (SubmitReturn (truthy feed_id))
      else if status_code =? 429 then
        if attempt <? MAX_RETRIES - 1 then
          retry_after <- header_int retry_after 300 ;;
          seconds <- checked_sleep retry_after ;;
          Ok (SubmitContinue [seconds])
        else Ok (SubmitContinue [])
      else Ok (SubmitReturn None)
  end.

Definition submit_except (attempt : Z) (e : Exn) : Exc SubmitStep :=
  if attempt <? MAX_RETRIES - 1 then
    Ok (SubmitContinue [RETRY_DELAY_SECONDS])
  else Ok (SubmitReturn None).

Fixpoint submit_loop (responses : Z -> Http (option string))
    (attempts : list Z) (slept : list Z) : option string * list Z :=
  match attempts with
  | [] => (None, slept)
  | attempt :: rest =>
      match try_except (submit_try attempt (responses attempt))
                       (submit_except attempt) with
      | Ok (SubmitReturn feed_id) => (feed_id, slept)
      | Ok (SubmitContinue s) => submit_loop responses rest (slept ++ s)
      | Raise _ => (None, slept)
      end
  end.

(** [enviar_feed]: the feed id, and the delays slept in seconds. *)
Definition enviar_feed (responses : Z -> Http (option string))
  : option string * list Z :=
  submit_loop responses (range2 0 MAX_RETRIES) [].

(** How one iteration of [verificar_status_feed] ends. *)
Inductive PollStep :=
| PollReturn (feed_status : FeedStatus)
| PollSleep (seconds : Z).

Definition poll_try (resp : Http FeedStatus) : Exc PollStep :=
  match resp with
  | HttpRaise e => Raise e
  | HttpResponse status_code retry_after json =>
      if status_code =? 200 then
        feed_status <- json ;;
        let processing_status := processingStatus feed_status in
        if status_is processing_status "DONE" then
          Ok (PollReturn feed_status)
        else if (status_is processing_status "CANCELLED"
                 || status_is processing_status "FATAL")%bool then
          Ok (PollReturn feed_status)
        else Ok (PollSleep STATUS_CHECK_INTERVAL)
      else if status_code =? 429 then
        delay_temp <- header_int retry_after RETRY_DELAY_SECONDS ;;
        seconds <- checked_sleep delay_temp ;;
        Ok (PollSleep seconds)
      else Ok (PollSleep STATUS_CHECK_INTERVAL)
  end.

Definition poll_body (resp : Http FeedStatus) : PollStep :=
  match poll_try resp with
  | Ok step => step
  | Raise _ => PollSleep STATUS_CHECK_INTERVAL
  end.

Fixpoint poll_loop (responses : Z -> Http FeedStatus) (attempts : list Z)
    (slept : list Z) : option FeedStatus * list Z :=
  match attempts with
  | [] => (None, slept)
  | attempt :: rest =>
      match poll_body (responses attempt) with
      | PollReturn feed_status => (Some feed_status, slept)
      | PollSleep seconds => poll_loop responses rest (slept ++ [seconds])
      end
  end.

(** [verificar_status_feed]: the status body it returns, and the delays
    slept in seconds. *)
Definition verificar_status_feed (responses : Z -> Http FeedStatus)
    (max_attempts : Z) : option FeedStatus * list Z :=
  poll_loop responses (range2 1 (max_attempts + 1)) [].

(** Lines 330-364: one slice.  The boolean is false where the source sets
    [success = False]. *)
Definition process_slice (w : SliceWorld) (AMAZON_CONFIG : AmazonConfig)
    (batch_num : Z) (batch_data : list FeedRow) : list Event * bool :=
  let started := [SliceStarted batch_num batch_data] in
  match create_inventory_feed_phase2 AMAZON_CONFIG batch_data with
  | None => (started, false)
  | Some feed =>
      let evs := started ++ [FeedSaved batch_num feed] in
      match create_feed_document (create_document_response w) with
      | None => (evs, false)
      | Some feed_document =>
          if negb (upload_feed_to_s3 (url feed_document) (upload_response w))
          then (evs, false)
          else
            let '(feed_id, slept1) := enviar_feed (submit_responses w) in
            let evs := evs ++ map Slept slept1 in
            match feed_id with
            | None => (evs, false)
            | Some feed_id =>
                let '(feed_result, slept2) :=
                  verificar_status_feed (poll_responses w) 20 in
                let evs := evs ++ map Slept slept2 in
                match feed_result with
                | Some feed_status =>
                    match resultFeedDocumentId feed_status with
                    | Some id => (evs ++ [ReportRequested id], true)
                    | None => (evs, false)
                    end
                | None => (evs, false)
                end
            end
      end
  end.

Fixpoint slice_loop (w : World) (AMAZON_CONFIG : AmazonConfig)
    (data : list FeedRow) (batch_size : Z) (batch_nums : list Z)
    (evs : list Event) (success : bool) : list Event * bool :=
  match batch_nums with
  | [] => (evs, success)
  | batch_num :: rest =>
      let total_products := len data in
      let start_idx := (batch_num - 1) * batch_size in
      let end_idx := Z.min (batch_num * batch_size) total_products in
      let batch_data := slice data start_idx end_idx in
      let '(evs', ok) :=
        process_slice (slice_world w batch_num) AMAZON_CONFIG
                      batch_num batch_data in
      slice_loop w AMAZON_CONFIG data batch_size rest (evs ++ evs')
                 (if ok then success else false)
  end.

(** [process_in_batches(data, batch_size)], with the value of the global
    [AMAZON_CONFIG] at the call. *)
Definition process_in_batches (w : World) (AMAZON_CONFIG : AmazonConfig)
    (data : list FeedRow) (batch_size : Z) : list Event * Exc bool :=
  match data with
  | [] => ([], Ok false)
  | _ =>
      let total_products := len data in
      if batch_size =? 0 then
        ([], Raise (MkExn ZeroDivisionError
                      "integer division or modulo by zero"))
      else
        let num_batches := (total_products + batch_size - 1) / batch_size in
        let '(access_token, AMAZON_CONFIG) :=
          get_sp_api_access_token w AMAZON_CONFIG in
        match access_token with
        | None => ([], Ok false)
        | Some _ =>
            let '(evs, success) :=
              slice_loop w AMAZON_CONFIG data batch_size
                         (range2 1 (num_batches + 1)) [] true in
            if success then
              let '(evs', r) := reset_updated_flag (reset_db w) in
              (evs ++ evs', _ <- r ;; Ok success)
            else (evs, Ok success)
        end
  end.

(** [main_phase2] *)
Definition main_phase2 (w : World) : list Event * Exc bool :=
  match amazon_credentials w with
  | None => ([], Ok false)
  | Some amazon_creds =>
      match extract_updated_data_phase2 (extract_db w) with
      | Raise e => ([], Raise e)
      | Ok None => ([], Ok false)
      | Ok (Some []) => ([], Ok false)
      | Ok (Some data) => process_in_batches w amazon_creds data 9990
      end
  end.

(** [run_phase2]: what it returns and what it logs about the phase. *)
Definition run_phase2 (w : World) : list Event * (bool * PhaseLog) :=
  let '(evs, r) := main_phase2 w in
  (evs,
   match r with
   | Ok true => (true, PhaseSucceeded)
   | Ok false => (false, PhaseFailed)
   | Raise _ => (false, PhaseError)
   end).

End Constants.

(** The batch numbers of the slices that were started, in order. *)
Definition started_slices (evs : list Event) : list Z :=
  flat_map (fun e => match e with
                     | SliceStarted batch_num _ => [batch_num]
                     | _ => []
                     end) evs.

(** *** Sample worlds *)

Definition sample_config : AmazonConfig :=
  {| seller_id := "A2SELLER";
     marketplace_id := "ATVPDKIKX0DER";
     client_id := "client";
     client_secret := "secret";
     refresh_token := "refresh" |}.

Definition healthy_db {A} (a : A) : DbSession A :=
  {| connection := true; execute := Ok a; release := Ok tt |}.

(** A validation that accepts every feed. *)
Definition accept_all : Feed -> Exc bool := fun _ => Ok true.

(** The messages are numbered [i], [i + 1], ... in order and each is a
    partial update. *)
Fixpoint sequential_partial_updates (i : Z) (msgs : list Message) : bool :=
  match msgs with
  | [] => true
  | m :: rest =>
      (messageId m =? i)
      && String.eqb (operationType m) "PARTIAL_UPDATE"
      && sequential_partial_updates (i + 1) rest
  end.

(** Modelled from the spec: [validar_feed_json], the structural validation
    pass of the document builder, is not in src.  The spec describes the
    document as messages keyed by a 1-based sequential message id, each a
    partial update, wrapped in a header that carries the seller identity and
    a fixed schema version, and it says that a document with an empty message
    list is structurally valid.  A document passes when it has this shape;
    the validation itself does not raise. *)
Definition validar_feed_json_spec (feed : Feed) : Exc bool :=
  Ok (String.eqb (version (header feed)) "2.0"
      && sequential_partial_updates 1 (messages feed)).

(** Every call succeeds, and the first status poll reports the given
    processing status together with a result document. *)
Definition slice_ending_in (processing_status : string) : SliceWorld :=
  {| create_document_response :=
       HttpResponse 201 NoHeader
         (Ok (Some {| feedDocumentId := Some "amzn1.tortuga.in";
                      url := Some "https://upload.example/in" |}));
     upload_response := HttpResponse 200 NoHeader (Ok tt);
     submit_responses := fun _ => HttpResponse 202 NoHeader (Ok (Some "50001"));
     poll_responses :=
       fun _ => HttpResponse 200 NoHeader
                  (Ok {| processingStatus := Some processing_status;
                         resultFeedDocumentId := Some "amzn1.tortuga.out" |}) |}.

Definition world_with (rows : list FeedRow) (processing_status : string)
  : World :=
  {| amazon_credentials := Some sample_config;
     token_response := Ok (Some "Atza|token");
     slice_world := fun _ => slice_ending_in processing_status;
     extract_db := healthy_db rows;
     reset_db := healthy_db tt |}.

End Phase2.

(* ================================================================== *)
(** ** Properties *)
(* ================================================================== *)

Lemma Qgtb_true a b : Qgtb a b = true <-> (b < a)%Q.
Proof.
  unfold Qgtb. rewrite negb_true_iff. split; intro H.
  - apply Qnot_le_lt. intro L. apply Qle_bool_iff in L. congruence.
  - destruct (Qle_bool a b) eqn:E; [|reflexivity].
    apply Qle_bool_iff in E. exfalso. exact (Qlt_not_le _ _ H E).
Qed.

Lemma Qgtb_false a b : Qgtb a b = false <-> (a <= b)%Q.
Proof.
  unfold Qgtb. rewrite negb_false_iff. apply Qle_bool_iff.
Qed.

Lemma Qltb_true a b : Qltb a b = true <-> (a < b)%Q.
Proof. exact (Qgtb_true b a). Qed.

Lemma Qltb_false a b : Qltb a b = false <-> (b <= a)%Q.
Proof. exact (Qgtb_false b a). Qed.

Module ProviderFacts.

Import Py Provider.

(** *** The validator *)

Section Rules.

Variable a : RemoteAnswer.

Lemma rule1_iff :
  (String.eqb (availability a) "outOfStock" && Qgtb (price a) 0)%bool = true
  <-> availability a = "outOfStock" /\ (0 < price a)%Q.
Proof. now rewrite andb_true_iff, String.eqb_eq, Qgtb_true. Qed.

Lemma rule2_iff :
  (Qeq_bool (price a) 0 && String.eqb (availability a) "outOfStock")%bool = true
  <-> availability a = "outOfStock" /\ (price a == 0)%Q.
Proof. rewrite andb_true_iff, String.eqb_eq, Qeq_bool_iff. tauto. Qed.

Lemma rule3_iff :
  (Qltb 0 (price a) && Qltb (price a) 5)%bool = true
  <-> (0 < price a)%Q /\ (price a < 5)%Q.
Proof. now rewrite andb_true_iff, !Qltb_true. Qed.

Lemma rule4_iff : Qgtb (price a) 10000 = true <-> (10000 < price a)%Q.
Proof. apply Qgtb_true. Qed.

End Rules.

Ltac reflect_rule H :=
  first [ apply rule1_iff in H | apply rule2_iff in H
        | apply rule3_iff in H | apply rule4_iff in H
        | apply not_true_iff_false in H;
          first [ rewrite rule1_iff in H | rewrite rule2_iff in H
                | rewrite rule3_iff in H | rewrite rule4_iff in H ] ].

(** C1.  [analyze_response] is a function of the answer alone (the SKU and
    the attempt number only label it), and its verdict is the one of the first
    rule that matches, in this order: out of stock with a positive price gives
    invalid/high; out of stock with price zero gives invalid/medium; a price
    strictly between 0 and 5 gives invalid/medium; a price above 10000 gives
    invalid/low; anything else is valid. *)
Theorem analyze_response_first_match (a : RemoteAnswer) (sku : string)
    (attempt : Z) :
  let v := analyze_response a sku attempt in
  let r1 := availability a = "outOfStock" /\ (0 < price a)%Q in
  let r2 := availability a = "outOfStock" /\ (price a == 0)%Q in
  let r3 := (0 < price a)%Q /\ (price a < 5)%Q in
  let r4 := (10000 < price a)%Q in
  (forall sku' attempt', analyze_response a sku' attempt' = v) /\
  (r1 -> is_valid v = false /\ severity v = high) /\
  (~ r1 -> r2 -> is_valid v = false /\ severity v = medium) /\
  (~ r1 -> ~ r2 -> r3 -> is_valid v = false /\ severity v = medium) /\
  (~ r1 -> ~ r2 -> ~ r3 -> r4 -> is_valid v = false /\ severity v = low) /\
  (~ r1 -> ~ r2 -> ~ r3 -> ~ r4 -> is_valid v = true).
Proof.
  cbv zeta. unfold analyze_response.
  destruct (String.eqb (availability a) "outOfStock"
            && Qgtb (price a) 0)%bool eqn:H1;
    [| destruct (Qeq_bool (price a) 0
                 && String.eqb (availability a) "outOfStock")%bool eqn:H2;
       [| destruct (Qltb 0 (price a) && Qltb (price a) 5)%bool eqn:H3;
          [| destruct (Qgtb (price a) 10000) eqn:H4 ] ] ];
    cbn [is_valid severity];
    (split; [reflexivity|]);
    repeat match goal with
           | H : _ = true |- _ => reflect_rule H
           | H : _ = false |- _ => reflect_rule H
           end;
    intuition (try congruence).
Qed.

(** *** A single lookup *)

Section Lookup.

Variable self : Config.
Variable sku : string.

(** A lookup never raises: it returns the fallback or a transformed answer. *)
Lemma fetch_product_data_cases (r : HttpResult) :
  fetch_product_data self sku r = Ok (fallback_answer self sku) \/
  exists av p b, fetch_product_data self sku r = Ok (transformed self sku av p b).
Proof.
  unfold fetch_product_data, fetch_try.
  destruct r as [ | msg | code body ]; cbn; auto.
  destruct (code =? 200); cbn; auto.
  destruct body as [ | | success d ]; cbn; auto.
  destruct success, d as [ | api | ]; cbn; auto.
  unfold transform.
  destruct (api_availability api) as [ | av | ]; cbn; auto;
    destruct (api_price api) as [ | p | ]; cbn; auto; right.
  - now exists "", 0%Q, (api_brand api).
  - now exists "", p, (api_brand api).
  - now exists av, 0%Q, (api_brand api).
  - now exists av, p, (api_brand api).
Qed.

Lemma fetch_product_data_total (r : HttpResult) :
  exists a, fetch_product_data self sku r = Ok a.
Proof.
  destruct (fetch_product_data_cases r) as [H | (av & p & b & H)];
    rewrite H; eauto.
Qed.

(** A transport-level failure, a status other than 200 and a body that is
    not the expected object all give the fallback. *)
Lemma fetch_product_data_timeout :
  fetch_product_data self sku HTimeout = Ok (fallback_answer self sku).
Proof. reflexivity. Qed.

Lemma fetch_product_data_failure (msg : string) :
  fetch_product_data self sku (HFailure msg) = Ok (fallback_answer self sku).
Proof. reflexivity. Qed.

Lemma fetch_product_data_sku (r : HttpResult) (a : RemoteAnswer) :
  fetch_product_data self sku r = Ok a -> Provider.sku a = sku.
Proof.
  destruct (fetch_product_data_cases r) as [H | (av & p & b & H)];
    rewrite H; intros [= <-]; reflexivity.
Qed.

Lemma fetch_ignores_api_quantity (status_code : Z) (success : bool)
    (d : ApiData) (q : option Z) :
  fetch_product_data self sku
    (HResponse status_code (Json success (Present (with_api_quantity d q))))
  = fetch_product_data self sku
      (HResponse status_code (Json success (Present d))).
Proof. reflexivity. Qed.

(** C10.  Whatever the product API does, the answer of a single lookup has
    the configured stock level as its quantity when it is in stock and 0
    otherwise, its availability is one of the two literals, its handling time
    is the sum of the two configured constants, and the quantity the API
    reports does not change the answer. *)
Theorem fetch_product_data_quantity_and_handling (r : HttpResult) :
  exists a,
    fetch_product_data self sku r = Ok a /\
    (availability a = "inStock" -> quantity a = stock_level self) /\
    (availability a <> "inStock" -> quantity a = 0) /\
    (availability a = "inStock" \/ availability a = "outOfStock") /\
    handlingTime a
      = handling_time_omd self + provider_specific_handling_time self /\
    (forall status_code success d q,
        r = HResponse status_code (Json success (Present d)) ->
        fetch_product_data self sku
          (HResponse status_code
             (Json success (Present (with_api_quantity d q)))) = Ok a).
Proof.
  assert (Hq : forall a, fetch_product_data self sku r = Ok a ->
               forall status_code success d q,
                 r = HResponse status_code (Json success (Present d)) ->
                 fetch_product_data self sku
                   (HResponse status_code
                      (Json success (Present (with_api_quantity d q))))
                 = Ok a).
  { intros a Ha c s d q ->. now rewrite fetch_ignores_api_quantity. }
  destruct (fetch_product_data_cases r) as [H | (av & p & b & H)];
    eexists; (split; [exact H|]);
    (split; [|split; [|split; [|split; [|exact (Hq _ H)]]]]); clear Hq H.
  - cbn. congruence.
  - reflexivity.
  - cbn. auto.
  - reflexivity.
  - cbn. now destruct (String.eqb (lower av) "instock").
  - cbn. destruct (String.eqb (lower av) "instock"); congruence.
  - cbn. destruct (String.eqb (lower av) "instock"); auto.
  - reflexivity.
Qed.

End Lookup.

(** *** What validation and comparison tell about an answer *)

Lemma invalid_inv (a : RemoteAnswer) (sku : string) (attempt : Z) :
  is_valid (analyze_response a sku attempt) = false ->
  (availability a = "outOfStock" /\ (0 < price a)%Q) \/
  (availability a = "outOfStock" /\ (price a == 0)%Q) \/
  ((0 < price a)%Q /\ (price a < 5)%Q) \/
  (10000 < price a)%Q.
Proof.
  unfold analyze_response.
  destruct (String.eqb (availability a) "outOfStock"
            && Qgtb (price a) 0)%bool eqn:H1;
    [ reflect_rule H1; auto |].
  destruct (Qeq_bool (price a) 0
            && String.eqb (availability a) "outOfStock")%bool eqn:H2;
    [ reflect_rule H2; auto |].
  destruct (Qltb 0 (price a) && Qltb (price a) 5)%bool eqn:H3;
    [ reflect_rule H3; auto |].
  destruct (Qgtb (price a) 10000) eqn:H4; [ reflect_rule H4; auto |].
  discriminate.
Qed.

(** An invalid answer that is in stock has a positive price. *)
Lemma invalid_in_stock_priced (a : RemoteAnswer) (sku : string) (attempt : Z) :
  is_valid (analyze_response a sku attempt) = false ->
  availability a = "inStock" -> (0 < price a)%Q.
Proof.
  intros Hv Hin.
  destruct (invalid_inv _ _ _ Hv) as [[H _]|[[H _]|[[H _]|H]]];
    try congruence; try assumption; lra.
Qed.

(** An invalid answer with no positive price is out of stock at price 0. *)
Lemma invalid_unpriced_zero (a : RemoteAnswer) (sku : string) (attempt : Z) :
  is_valid (analyze_response a sku attempt) = false ->
  ~ (0 < price a)%Q ->
  availability a = "outOfStock" /\ (price a == 0)%Q.
Proof.
  intros Hv Hp.
  destruct (invalid_inv _ _ _ Hv) as [[_ H]|[H|[[H _]|H]]];
    try assumption; try contradiction; exfalso; apply Hp; lra.
Qed.

Lemma is_better_inv (current previous : RemoteAnswer) :
  is_better_response current (Some previous) = true ->
  ((0 < price current)%Q /\ (price previous == 0)%Q) \/
  (availability current = "inStock" /\ availability previous = "outOfStock").
Proof.
  unfold is_better_response.
  destruct (Qgtb (price current) 0 && Qeq_bool (price previous) 0)%bool
    eqn:H1.
  - apply andb_true_iff in H1 as [H1 H2].
    apply Qgtb_true in H1. apply Qeq_bool_iff in H2. auto.
  - destruct (String.eqb (availability current) "inStock"
              && String.eqb (availability previous) "outOfStock")%bool
      eqn:H2; [| discriminate].
    apply andb_true_iff in H2 as [H2 H3].
    apply String.eqb_eq in H2, H3. auto.
Qed.

Lemma is_better_intro_price (current previous : RemoteAnswer) :
  (0 < price current)%Q -> (price previous == 0)%Q ->
  is_better_response current (Some previous) = true.
Proof.
  intros H1 H2. unfold is_better_response.
  apply Qgtb_true in H1. apply Qeq_bool_iff in H2.
  now rewrite H1, H2.
Qed.

Lemma is_better_intro_stock (current previous : RemoteAnswer) :
  availability current = "inStock" ->
  availability previous = "outOfStock" ->
  is_better_response current (Some previous) = true.
Proof.
  intros H1 H2. unfold is_better_response. rewrite H1, H2. cbn.
  now destruct (_ && _)%bool.
Qed.

(** *** Ranges *)

Lemma range2_nil (a b : Z) : b <= a -> range2 a b = [].
Proof.
  intro H. unfold range2.
  replace (Z.to_nat (b - a)) with 0%nat by lia. reflexivity.
Qed.

Lemma range2_cons (a b : Z) : a < b -> range2 a b = a :: range2 (a + 1) b.
Proof.
  intro H. unfold range2.
  replace (Z.to_nat (b - a)) with (S (Z.to_nat (b - (a + 1)))) by lia.
  cbn [seq map]. f_equal; [lia|].
  rewrite <- seq_shift, map_map. apply map_ext. intro k. lia.
Qed.

Lemma in_range2 (a b x : Z) : In x (range2 a b) <-> a <= x < b.
Proof.
  unfold range2. rewrite in_map_iff. split.
  - intros (k & <- & Hk). apply in_seq in Hk. lia.
  - intro H. exists (Z.to_nat (x - a)). split; [lia|].
    apply in_seq. lia.
Qed.

(** [calculate_retry_delay], in closed form. *)
Lemma calculate_retry_delay_low (attempt : Z) :
  calculate_retry_delay attempt low = 1000 * attempt.
Proof.
  unfold calculate_retry_delay, int_of, severity_multiplier, Qmult, inject_Z.
  cbn [Qnum Qden Pos.mul].
  rewrite Z.mul_1_r. apply Z.quot_1_r.
Qed.

Lemma calculate_retry_delay_medium (attempt : Z) :
  calculate_retry_delay attempt medium = 1500 * attempt.
Proof.
  unfold calculate_retry_delay, int_of, severity_multiplier, Qmult, inject_Z.
  cbn [Qnum Qden Pos.mul].
  replace (1000 * attempt * 3) with (1500 * attempt * 2) by lia.
  now apply Z.quot_mul.
Qed.

Lemma calculate_retry_delay_high (attempt : Z) :
  calculate_retry_delay attempt high = 2000 * attempt.
Proof.
  unfold calculate_retry_delay, int_of, severity_multiplier, Qmult, inject_Z.
  cbn [Qnum Qden Pos.mul].
  replace (1000 * attempt * 2) with (2000 * attempt * 1) by lia.
  now apply Z.quot_mul.
Qed.

(** *** The retrying fetcher *)

(** How the best candidate may change over one attempt: it is never dropped;
    a positive price stays positive; an in-stock candidate is kept as it is;
    the price only goes down when an out-of-stock candidate gives way to an
    in-stock answer. *)
Definition candidate_step (before after : option RemoteAnswer) : Prop :=
  match before, after with
  | None, _ => True
  | Some _, None => False
  | Some prev, Some next =>
      ((0 < price prev)%Q -> (0 < price next)%Q) /\
      (availability prev = "inStock" -> next = prev) /\
      ((price next < price prev)%Q ->
       availability prev = "outOfStock" /\ availability next = "inStock")
  end.

(** Between an earlier and a later best candidate of one call: the
    candidate is never dropped; from zero the price can only go up; a
    positive price is never followed by a zero one; an in-stock candidate is
    never followed by an out-of-stock one. *)
Definition never_worse (earlier later : option RemoteAnswer) : Prop :=
  match earlier, later with
  | None, _ => True
  | Some _, None => False
  | Some prev, Some next =>
      ((price prev == 0)%Q -> (price prev <= price next)%Q) /\
      ((0 < price prev)%Q -> (0 < price next)%Q) /\
      (availability prev = "inStock" -> availability next <> "outOfStock")
  end.

(** The part of [candidate_step] that carries over any number of
    attempts. *)
Definition candidate_kept (earlier later : option RemoteAnswer) : Prop :=
  match earlier, later with
  | None, _ => True
  | Some _, None => False
  | Some prev, Some next =>
      ((0 < price prev)%Q -> (0 < price next)%Q) /\
      (availability prev = "inStock" -> next = prev)
  end.

(** The price of a candidate is not negative. *)
Definition priced_from_zero (c : option RemoteAnswer) : Prop :=
  match c with
  | Some a => (0 <= price a)%Q
  | None => True
  end.

(** Numeric order of the prices of two successive candidates, which the
    code does not keep: see [best_candidate_price_can_go_down]. *)
Definition price_non_decreasing (before after : option RemoteAnswer) : Prop :=
  match before, after with
  | Some prev, Some next => (price prev <= price next)%Q
  | _, _ => True
  end.

(** Out of stock at price zero. *)
Definition unpriced (a : RemoteAnswer) : Prop :=
  availability a = "outOfStock" /\ (price a == 0)%Q.

Lemma candidate_step_refl (c : option RemoteAnswer) : candidate_step c c.
Proof.
  destruct c as [c|]; cbn; [|exact I].
  repeat split; auto; lra.
Qed.

Lemma candidate_step_replaced (c pd : RemoteAnswer) (sku : string) :
  is_valid (analyze_response c sku 0) = false ->
  is_valid (analyze_response pd sku 0) = false ->
  is_better_response pd (Some c) = true ->
  candidate_step (Some c) (Some pd).
Proof.
  intros Hc Hpd Hb. cbn.
  destruct (is_better_inv _ _ Hb) as [[Hp Hz]|[Hin Hout]].
  - split; [auto|]. split.
    + intro Hs. pose proof (invalid_in_stock_priced _ _ _ Hc Hs). lra.
    + intro. lra.
  - split; [|split].
    + intros _. exact (invalid_in_stock_priced _ _ _ Hpd Hin).
    + congruence.
    + auto.
Qed.

Lemma out_of_stock_fields (self : Config) (sku : string) (r : HttpResult)
    (a : RemoteAnswer) :
  fetch_product_data self sku r = Ok a ->
  availability a = "outOfStock" ->
  quantity a = 0 /\
  handlingTime a
  = handling_time_omd self + provider_specific_handling_time self.
Proof.
  destruct (fetch_product_data_cases self sku r) as [H | (av & p & b & H)];
    rewrite H; intros [= <-]; cbn; [auto|].
  destruct (String.eqb (lower av) "instock"); [discriminate|auto].
Qed.

Section RetryFacts.

Variable self : Config.
Variable sku : string.
Variable max_retries : Z.
Variable remote : Z -> HttpResult.

#[local] Abbreviation body := (attempt_body self sku max_retries).
#[local] Abbreviation loop := (retry_loop self sku max_retries remote).
#[local] Abbreviation states :=
  (retry_states self sku max_retries remote).

(** The three ways an iteration can end.  The [except] handler of the loop
    is not among them: [fetch_product_data] has absorbed every failure. *)
Lemma attempt_body_cases (attempt : Z) (r : HttpResult) (st : LoopState) :
  exists pd,
    fetch_product_data self sku r = Ok pd /\
    let analysis := analyze_response pd sku attempt in
    let last := if is_better_response pd (last_valid_response st)
                then Some pd else last_valid_response st in
    (is_valid analysis = true /\
     body attempt r st
     = Ok (Return pd {| last_valid_response := last_valid_response st;
                        product_data := Some pd;
                        slept := slept st |})) \/
    (is_valid analysis = false /\ attempt < max_retries /\
     body attempt r st
     = Ok (Next {| last_valid_response := last;
                   product_data := Some pd;
                   slept := slept st
                            ++ [calculate_retry_delay attempt
                                  (severity analysis)] |})) \/
    (is_valid analysis = false /\ max_retries <= attempt /\
     body attempt r st
     = Ok (Return (or_else last pd)
                  {| last_valid_response := last;
                     product_data := Some pd;
                     slept := slept st |})).
Proof.
  destruct (fetch_product_data_total self sku r) as [pd Hpd].
  exists pd. split; [exact Hpd|]. cbv zeta.
  unfold attempt_body, attempt_try. rewrite Hpd. cbn [bind try_except].
  destruct (is_valid (analyze_response pd sku attempt)) eqn:Hv; [auto|].
  destruct (attempt <? max_retries) eqn:Hlt.
  - apply Z.ltb_lt in Hlt. auto.
  - apply Z.ltb_ge in Hlt. auto 6.
Qed.

Lemma attempt_body_never_raises (attempt : Z) (r : HttpResult)
    (st : LoopState) :
  exists step, body attempt r st = Ok step.
Proof.
  destruct (attempt_body_cases attempt r st)
    as (pd & _ & [[_ H]|[(_ & _ & H)|(_ & _ & H)]]); eauto.
Qed.

Lemma retry_loop_returns (attempts : list Z) :
  forall st,
    (exists a, In a attempts /\ max_retries <= a) ->
    exists answer st', loop attempts st = Ok (answer, st').
Proof.
  induction attempts as [|attempt rest IH]; intros st (a & Hin & Ha).
  - destruct Hin.
  - cbn [retry_loop].
    destruct (attempt_body_cases attempt (remote attempt) st)
      as (pd & _ & [[_ H]|[(_ & Hlt & H)|(_ & _ & H)]]);
      rewrite H; cbn [bind]; eauto.
    apply IH. exists a. split; [|exact Ha].
    destruct Hin as [<-|Hin]; [lia|exact Hin].
Qed.

(** C7.  With at least one attempt allowed, the retrying fetcher returns an
    answer whatever the product API does on each attempt (an answer, a body
    that is not the expected JSON, a status other than 200, a timeout, any
    other exception): no exception leaves it. *)
Theorem fetch_product_data_with_retry_always_returns :
  1 <= max_retries ->
  exists answer st,
    fetch_product_data_with_retry self sku max_retries remote
    = Ok (answer, st).
Proof.
  intro H. unfold fetch_product_data_with_retry.
  apply retry_loop_returns. exists max_retries. split; [|lia].
  apply in_range2. lia.
Qed.

(** Without any attempt the loop body never binds [product_data], and the
    final [return] raises. *)
Lemma fetch_product_data_with_retry_no_attempt :
  max_retries <= 0 ->
  raises (fetch_product_data_with_retry self sku max_retries remote) = true.
Proof.
  intro H. unfold fetch_product_data_with_retry.
  rewrite range2_nil by lia. reflexivity.
Qed.

(** A transport-level failure reaches the loop as the fallback answer, which
    the validator rates [medium]: the delay before the next attempt is
    1500 ms times the attempt number. *)
Lemma transport_failure_step (attempt : Z) (r : HttpResult) (st : LoopState) :
  r = HTimeout \/ (exists msg, r = HFailure msg) ->
  attempt < max_retries ->
  exists last,
    body attempt r st
    = Ok (Next {| last_valid_response := last;
                  product_data := Some (fallback_answer self sku);
                  slept := slept st ++ [1500 * attempt] |}).
Proof.
  intros Hr Hlt.
  assert (Hf : fetch_product_data self sku r = Ok (fallback_answer self sku))
    by (destruct Hr as [->|[msg ->]]; reflexivity).
  unfold attempt_body, attempt_try. rewrite Hf. cbn [bind try_except].
  change (is_valid (analyze_response (fallback_answer self sku) sku attempt))
    with false. cbv iota.
  apply Z.ltb_lt in Hlt. rewrite Hlt.
  change (severity (analyze_response (fallback_answer self sku) sku attempt))
    with medium.
  rewrite calculate_retry_delay_medium. eexists. reflexivity.
Qed.

(** Every retained candidate failed validation. *)
Definition candidate_invalid (st : LoopState) : Prop :=
  forall c, last_valid_response st = Some c ->
            is_valid (analyze_response c sku 0) = false.

Definition step_state (s : Step) : LoopState :=
  match s with Next st | Return _ st => st end.

Lemma attempt_body_candidate (attempt : Z) (r : HttpResult) (st : LoopState)
    (step : Step) :
  body attempt r st = Ok step ->
  candidate_invalid st ->
  candidate_step (last_valid_response st)
                 (last_valid_response (step_state step)) /\
  candidate_invalid (step_state step).
Proof.
  intros Hstep Hinv.
  destruct (attempt_body_cases attempt r st)
    as (pd & _ & [[_ H]|[(Hv & _ & H)|(Hv & _ & H)]]);
    rewrite H in Hstep; injection Hstep as <-; cbn [step_state
      last_valid_response].
  - split; [apply candidate_step_refl | exact Hinv].
  - destruct (last_valid_response st) as [c|] eqn:Hl.
    + destruct (is_better_response pd (Some c)) eqn:Hb.
      * split; [|intros ? [= <-]; exact Hv].
        apply candidate_step_replaced with (sku := sku); auto.
      * split; [apply candidate_step_refl|]. intros ? [= <-]. auto.
    + cbn. split; [exact I|]. intros ? [= <-]. exact Hv.
  - destruct (last_valid_response st) as [c|] eqn:Hl.
    + destruct (is_better_response pd (Some c)) eqn:Hb.
      * split; [|intros ? [= <-]; exact Hv].
        apply candidate_step_replaced with (sku := sku); auto.
      * split; [apply candidate_step_refl|]. intros ? [= <-]. auto.
    + cbn. split; [exact I|]. intros ? [= <-]. exact Hv.
Qed.

Lemma candidates_from (attempts : list Z) :
  forall st,
    candidate_invalid st ->
    Forall (fun p => candidate_step (fst p) (snd p))
           (consecutive (map last_valid_response (st :: states attempts st))).
Proof.
  induction attempts as [|attempt rest IH]; intros st Hinv.
  - constructor.
  - cbn [retry_states].
    destruct (attempt_body_never_raises attempt (remote attempt) st)
      as [step Hstep].
    rewrite Hstep.
    destruct (attempt_body_candidate _ _ _ _ Hstep Hinv) as [Hc Hinv'].
    destruct step as [st'|a st']; cbn [step_state] in *.
    + cbn [map consecutive]. constructor; [exact Hc|].
      apply (IH st' Hinv').
    + cbn [map consecutive]. constructor; [exact Hc|constructor].
Qed.

(** From one attempt to the next the best candidate is never dropped, a
    candidate with a positive price is never followed by one without, a
    candidate that is in stock is never replaced at all, and the price goes
    down only when an out-of-stock candidate is replaced by an in-stock
    answer. *)
Theorem best_candidate_steps :
  Forall (fun p => candidate_step (fst p) (snd p))
         (consecutive (candidates self sku max_retries remote)).
Proof.
  unfold candidates. apply candidates_from.
  intros c Hc. discriminate Hc.
Qed.

(** Every candidate is an answer that failed validation. *)
Lemma candidates_invalid_from (attempts : list Z) :
  forall st,
    candidate_invalid st ->
    Forall (fun c => forall a, c = Some a ->
                               is_valid (analyze_response a sku 0) = false)
           (map last_valid_response (st :: states attempts st)).
Proof.
  induction attempts as [|attempt rest IH]; intros st Hinv.
  - constructor; [exact Hinv|constructor].
  - cbn [retry_states].
    destruct (attempt_body_never_raises attempt (remote attempt) st)
      as [step Hstep].
    rewrite Hstep.
    destruct (attempt_body_candidate _ _ _ _ Hstep Hinv) as [_ Hinv'].
    destruct step as [st'|a st']; cbn [step_state] in *.
    + cbn [map]. constructor; [exact Hinv|]. apply (IH st' Hinv').
    + cbn [map]. constructor; [exact Hinv|].
      constructor; [exact Hinv'|constructor].
Qed.

Lemma candidate_kept_trans (a b c : option RemoteAnswer) :
  candidate_kept a b -> candidate_kept b c -> candidate_kept a c.
Proof.
  destruct a as [a|], b as [b|], c as [c|]; cbn; try tauto.
  intros [Hp1 Hs1] [Hp2 Hs2]. split; [auto|].
  intro Hin. pose proof (Hs1 Hin) as Hb. subst b. exact (Hs2 Hin).
Qed.

Lemma candidate_step_kept (a b : option RemoteAnswer) :
  candidate_step a b -> candidate_kept a b.
Proof. destruct a as [a|], b as [b|]; cbn; tauto. Qed.

(** What holds from each element to the next holds between any two
    elements in their order, for a transitive relation. *)
Lemma consecutive_ordered_pairs {A} (R : A -> A -> Prop) :
  (forall x y z, R x y -> R y z -> R x z) ->
  forall l,
    Forall (fun p => R (fst p) (snd p)) (consecutive l) ->
    ForallOrdPairs R l.
Proof.
  intros Htrans l. induction l as [|x l IH]; intro H; [constructor|].
  destruct l as [|y tl]; [constructor; constructor|].
  cbn [consecutive] in H.
  apply Forall_cons_iff in H as [Hxy Hrest]. cbn [fst snd] in Hxy.
  specialize (IH Hrest). constructor; [|exact IH].
  inversion IH as [|? ? Hy _]; subst.
  constructor; [exact Hxy|].
  apply (Forall_impl _ (fun z Hz => Htrans x y z Hxy Hz) Hy).
Qed.

Lemma ordered_pairs_impl {A} (P : A -> Prop) (R R' : A -> A -> Prop) :
  (forall x y, P x -> P y -> R x y -> R' x y) ->
  forall l, Forall P l -> ForallOrdPairs R l -> ForallOrdPairs R' l.
Proof.
  intros Himp l HP H. induction H as [|x l Hx _ IH]; [constructor|].
  apply Forall_cons_iff in HP as [Px Pl].
  constructor; [|exact (IH Pl)].
  rewrite Forall_forall in *. intros y Hy. apply Himp; auto.
Qed.

(** C8.  Across the attempts of one call, the price of the retained best
    candidate starts from zero or above and, between any earlier and any
    later candidate, a zero price can only go up and a positive price is
    never replaced by a zero one (the prices are zero up to the first
    positive one seen and positive from then on); the candidate is never
    dropped; and once the best candidate is in stock it is never replaced by
    an out-of-stock answer. *)
Theorem best_candidate_never_gets_worse :
  Forall priced_from_zero (candidates self sku max_retries remote) /\
  ForallOrdPairs never_worse (candidates self sku max_retries remote).
Proof.
  assert (Hinv : Forall (fun c => forall a, c = Some a ->
                           is_valid (analyze_response a sku 0) = false)
                        (candidates self sku max_retries remote)).
  { unfold candidates. apply candidates_invalid_from.
    intros c Hc. discriminate Hc. }
  assert (Hpos : forall a, is_valid (analyze_response a sku 0) = false ->
                           (0 <= price a)%Q).
  { intros a Ha.
    destruct (invalid_inv _ _ _ Ha) as [[_ H]|[[_ H]|[[H _]|H]]]; lra. }
  split.
  - apply (Forall_impl _ (P := fun c => forall a, c = Some a ->
                            is_valid (analyze_response a sku 0) = false));
      [|exact Hinv].
    intros [a|] Ha; cbn; [|exact I]. apply Hpos, Ha. reflexivity.
  - apply (ordered_pairs_impl _ candidate_kept never_worse) with (2 := Hinv).
    + intros [prev|] [next|] Hprev Hnext; cbn; try tauto.
      intros [Hp Hs]. split; [|split].
      * intro Hz. pose proof (Hpos next (Hnext next eq_refl)). lra.
      * exact Hp.
      * intro Hin. rewrite (Hs Hin), Hin. discriminate.
    + apply (consecutive_ordered_pairs _ candidate_kept_trans).
      apply (Forall_impl _ (fun p => candidate_step_kept (fst p) (snd p))).
      exact best_candidate_steps.
Qed.

(** While every attempt fails validation and no candidate is priced or in
    stock, the loop keeps the candidate it has and returns it. *)
Lemma loop_keeps_candidate (m : nat) :
  forall k st c,
    Z.of_nat (S m) = max_retries + 1 - k ->
    last_valid_response st = Some c ->
    unpriced c ->
    (forall attempt pd,
        k <= attempt <= max_retries ->
        fetch_product_data self sku (remote attempt) = Ok pd ->
        is_valid (analyze_response pd sku attempt) = false) ->
    (forall st' c',
        In st' (states (range2 k (max_retries + 1)) st) ->
        last_valid_response st' = Some c' ->
        ~ (0 < price c')%Q /\ availability c' <> "inStock") ->
    exists st' last,
      loop (range2 k (max_retries + 1)) st = Ok (c, st') /\
      fetch_product_data self sku (remote max_retries) = Ok last /\
      unpriced last.
Proof.
  induction m as [|m IH]; intros k st c Hk Hl Hc Hinv Hcand;
    rewrite range2_cons in Hcand |- * by lia;
    cbn [retry_loop]; cbn [retry_states] in Hcand;
    destruct (attempt_body_cases k (remote k) st)
      as (pd & Hpd & [[Hv H]|[(Hv & Hlt & H)|(Hv & Hge & H)]]);
    rewrite H in Hcand |- *; cbn [bind];
    try (rewrite (Hinv k pd) in Hv by (auto; lia); discriminate);
    try lia;
    rewrite Hl in *.
  - (* the last attempt *)
    assert (Hb : is_better_response pd (Some c) = false).
    { destruct (is_better_response pd (Some c)) eqn:Hb; [|reflexivity].
      destruct (Hcand _ pd (or_introl eq_refl) eq_refl) as [Hn1 Hn2].
      destruct (is_better_inv _ _ Hb) as [[Hp _]|[Hin _]]; contradiction. }
    rewrite Hb. cbn [or_else]. do 2 eexists. split; [reflexivity|].
    assert (k = max_retries) as -> by lia.
    split; [exact Hpd|].
    apply invalid_unpriced_zero with (sku := sku) (attempt := max_retries);
      [exact Hv|].
    intro Hp. destruct Hc as [_ Hz].
    rewrite (is_better_intro_price _ _ Hp Hz) in Hb. discriminate.
  - (* an earlier attempt *)
    assert (Hb : is_better_response pd (Some c) = false).
    { destruct (is_better_response pd (Some c)) eqn:Hb; [|reflexivity].
      destruct (Hcand _ pd (or_introl eq_refl) eq_refl) as [Hn1 Hn2].
      destruct (is_better_inv _ _ Hb) as [[Hp _]|[Hin _]]; contradiction. }
    rewrite Hb in Hcand |- *.
    apply IH; [lia|reflexivity|exact Hc| |].
    + intros attempt pd' Ha. apply Hinv. lia.
    + intros st' c' Hin. apply Hcand. right. exact Hin.
Qed.

(** C3 (as amended).  If every attempt's answer fails validation and no
    retained candidate ever has a positive price or is in stock, the fetcher
    returns the answer of the first attempt; the answer of the last attempt
    has the same identifier, price, quantity, availability and handling time
    (the brand is the one field that may differ). *)
Theorem all_invalid_returns_first_answer :
  1 <= max_retries ->
  (forall attempt pd,
      1 <= attempt <= max_retries ->
      fetch_product_data self sku (remote attempt) = Ok pd ->
      is_valid (analyze_response pd sku attempt) = false) ->
  (forall c,
      In (Some c) (candidates self sku max_retries remote) ->
      ~ (0 < price c)%Q /\ availability c <> "inStock") ->
  exists first last st,
    fetch_product_data self sku (remote 1) = Ok first /\
    fetch_product_data self sku (remote max_retries) = Ok last /\
    fetch_product_data_with_retry self sku max_retries remote
    = Ok (first, st) /\
    Provider.sku first = Provider.sku last /\
    (price first == price last)%Q /\
    quantity first = quantity last /\
    availability first = availability last /\
    handlingTime first = handlingTime last.
Proof.
  intros Hmax Hinv Hcand.
  assert (Hcand' : forall st' c',
             In st' (states (range2 1 (max_retries + 1)) initial_state) ->
             last_valid_response st' = Some c' ->
             ~ (0 < price c')%Q /\ availability c' <> "inStock").
  { intros st' c' Hin Hl. apply Hcand. unfold candidates.
    rewrite <- Hl. apply in_map. right. exact Hin. }
  clear Hcand. unfold fetch_product_data_with_retry.
  rewrite range2_cons in Hcand' |- * by lia.
  cbn [retry_loop]. cbn [retry_states] in Hcand'.
  destruct (attempt_body_cases 1 (remote 1) initial_state)
    as (pd & Hpd & [[Hv H]|[(Hv & Hlt & H)|(Hv & Hge & H)]]);
    rewrite H in Hcand' |- *; cbn [bind];
    try (rewrite (Hinv 1 pd) in Hv by (auto; lia); discriminate);
    cbn [initial_state last_valid_response is_better_response] in *.
  - (* more attempts follow *)
    destruct (Hcand' _ pd (or_introl eq_refl) eq_refl) as [Hn1 Hn2].
    pose proof (invalid_unpriced_zero _ _ _ Hv Hn1) as Hu.
    assert (Hm : Z.of_nat (S (Z.to_nat (max_retries - 2)))
                 = max_retries + 1 - 2) by lia.
    change (1 + 1) with 2 in *.
    match goal with
    | |- context [retry_loop _ _ _ _ _ ?st1] =>
        destruct (loop_keeps_candidate _ 2 st1 pd Hm eq_refl Hu)
          as (st' & last & Hloop & Hlast & Hul)
    end.
    + intros attempt pd' Ha. apply Hinv. lia.
    + intros st' c' Hin. apply Hcand'. right. exact Hin.
    + exists pd, last, st'. rewrite Hloop.
      destruct Hu as [Ha Hz], Hul as [Ha' Hz'].
      destruct (out_of_stock_fields _ _ _ _ Hpd Ha) as [Hq Hh].
      destruct (out_of_stock_fields _ _ _ _ Hlast Ha') as [Hq' Hh'].
      rewrite (fetch_product_data_sku _ _ _ _ Hpd),
              (fetch_product_data_sku _ _ _ _ Hlast).
      repeat split; try congruence. now rewrite Hz, Hz'.
  - (* the only attempt *)
    assert (max_retries = 1) as -> by lia.
    exists pd, pd. eexists. cbn [or_else].
    repeat split; try reflexivity; exact Hpd.
Qed.

End RetryFacts.

(** *** Concrete runs of the fetcher *)

(** The API never answers. *)
Definition always_timeout : Z -> HttpResult := fun _ => HTimeout.

(** Out of stock at price zero with a brand, then no answer any more. *)
Definition zero_then_timeouts : Z -> HttpResult :=
  fun attempt =>
    if attempt =? 1 then api_answer "outOfStock" 0 "Sony" else HTimeout.

(** Out of stock at $50, then no answer any more. *)
Definition priced_then_timeouts : Z -> HttpResult :=
  fun attempt =>
    if attempt =? 1 then api_answer "outOfStock" 50 "Sony" else HTimeout.

(** Out of stock at $50, then in stock at $3, then no answer. *)
Definition priced_then_cheap_in_stock : Z -> HttpResult :=
  fun attempt =>
    if attempt =? 1 then api_answer "outOfStock" 50 "Sony"
    else if attempt =? 2 then api_answer "inStock" 3 "Sony"
    else HTimeout.

Lemma fetch_product_data_with_retry_always_returns_witness :
  1 <= 3 /\
  exists answer st,
    fetch_product_data_with_retry default_config "6569319" 3 always_timeout
    = Ok (answer, st).
Proof.
  split; [lia|].
  apply (fetch_product_data_with_retry_always_returns
           default_config "6569319" 3 always_timeout).
  lia.
Defined.

(** C2 (defect of the code).  When every attempt times out, the fetcher
    sleeps 1500 ms and 3000 ms (the [medium] delays), not the 2000 ms and
    4000 ms of a [high] rating; and when an earlier attempt left a priced
    out-of-stock candidate, two timeouts later the fetcher returns that
    candidate and not the zero-price fallback. *)
Theorem transport_failures_take_the_medium_path :
  fetch_product_data_with_retry default_config "6569319" 3 always_timeout
  = Ok (fallback_answer default_config "6569319",
        {| last_valid_response :=
             Some (fallback_answer default_config "6569319");
           product_data := Some (fallback_answer default_config "6569319");
           slept := [1500; 3000] |}) /\
  calculate_retry_delay 1 high = 2000 /\
  calculate_retry_delay 2 high = 4000 /\
  fetch_product_data_with_retry default_config "6583949" 3
    priced_then_timeouts
  = Ok (transformed default_config "6583949" "outOfStock" 50 (Some "Sony"),
        {| last_valid_response :=
             Some (transformed default_config "6583949" "outOfStock" 50
                     (Some "Sony"));
           product_data := Some (fallback_answer default_config "6583949");
           slept := [2000; 3000] |}).
Proof. repeat split; vm_compute; reflexivity. Qed.

(** C3, refuted as stated: every attempt fails validation and no candidate
    is priced or in stock, yet the answer returned (brand "Sony", from the
    first attempt) is not the answer of the last attempt (brand ""). *)
Lemma returned_answer_is_not_the_last :
  (forall attempt pd,
      1 <= attempt <= 3 ->
      fetch_product_data default_config "6577453" (zero_then_timeouts attempt)
      = Ok pd ->
      is_valid (analyze_response pd "6577453" attempt) = false) /\
  (forall c,
      In (Some c)
         (candidates default_config "6577453" 3 zero_then_timeouts) ->
      ~ (0 < price c)%Q /\ availability c <> "inStock") /\
  exists returned last st,
    fetch_product_data_with_retry default_config "6577453" 3
      zero_then_timeouts = Ok (returned, st) /\
    fetch_product_data default_config "6577453" (zero_then_timeouts 3)
    = Ok last /\
    returned <> last.
Proof.
  split; [|split].
  - intros attempt pd Ha.
    assert (attempt = 1 \/ attempt = 2 \/ attempt = 3) as [ -> | [ -> | -> ] ]
        by lia;
      intros [= <-]; reflexivity.
  - intros c Hin. vm_compute in Hin.
    destruct Hin as [H|[H|[H|[H|[]]]]]; try discriminate H;
      injection H as <-; (split; [cbn; lra | cbn; discriminate]).
  - do 3 eexists. split; [vm_compute; reflexivity|].
    split; [vm_compute; reflexivity|]. discriminate.
Qed.

Lemma all_invalid_returns_first_answer_witness :
  exists first last st,
    fetch_product_data default_config "6577453" (zero_then_timeouts 1)
    = Ok first /\
    fetch_product_data default_config "6577453" (zero_then_timeouts 3)
    = Ok last /\
    fetch_product_data_with_retry default_config "6577453" 3
      zero_then_timeouts = Ok (first, st) /\
    Provider.sku first = Provider.sku last /\
    (price first == price last)%Q /\
    quantity first = quantity last /\
    availability first = availability last /\
    handlingTime first = handlingTime last.
Proof.
  apply (all_invalid_returns_first_answer
           default_config "6577453" 3 zero_then_timeouts).
  - lia.
  - intros attempt pd Ha.
    assert (attempt = 1 \/ attempt = 2 \/ attempt = 3) as [ -> | [ -> | -> ] ]
        by lia;
      intros [= <-]; reflexivity.
  - intros c Hin. vm_compute in Hin.
    destruct Hin as [H|[H|[H|[H|[]]]]]; try discriminate H;
      injection H as <-; (split; [cbn; lra | cbn; discriminate]).
Defined.

(** The prices of successive candidates are not ordered as numbers: the
    candidate priced $50 (out of stock) is replaced by one priced $3 (in
    stock).  Both prices are positive, so this is no return to zero. *)
Lemma best_candidate_price_can_go_down :
  ~ Forall (fun p => price_non_decreasing (fst p) (snd p))
      (consecutive
         (candidates default_config "6519664" 3 priced_then_cheap_in_stock)).
Proof.
  intro H. rewrite Forall_forall in H.
  specialize
    (H (Some (transformed default_config "6519664" "outOfStock" 50
                (Some "Sony")),
        Some (transformed default_config "6519664" "inStock" 3
                (Some "Sony")))).
  assert (Hle : (50 <= 3)%Q) by (apply H; vm_compute; auto).
  revert Hle. apply Qlt_not_le. reflexivity.
Qed.

(** *** The reconciliation writer *)

Lemma has_changes_false_iff (self : Config) (row : Row) (pd : RemoteAnswer) :
  has_changes self row pd = false <-> fields_agree self row pd.
Proof.
  unfold has_changes, fields_agree.
  rewrite !orb_false_iff, !negb_false_iff, !Z.eqb_eq, !String.eqb_eq,
    Qeq_bool_iff.
  tauto.
Qed.

Lemma has_changes_true_iff (self : Config) (row : Row) (pd : RemoteAnswer) :
  has_changes self row pd = true <-> ~ fields_agree self row pd.
Proof.
  rewrite <- has_changes_false_iff.
  destruct (has_changes self row pd); split; congruence.
Qed.

Lemma update_product_in_db_never_raises (self : Config) (db : DbBehaviour)
    (pd : RemoteAnswer) :
  exists cmds w, update_product_in_db self db pd = (cmds, Ok w).
Proof.
  unfold update_product_in_db, update_try.
  destruct (on_cursor db) as [[]|e]; [|cbn; eauto].
  destruct (on_select db) as [[row|]|e]; [|cbn; eauto..].
  destruct (has_changes self row pd); cbn.
  - destruct (on_update db) as [n|e]; [|cbn; eauto].
    destruct (n =? 0)%N; cbn; eauto.
  - destruct (on_touch db) as [[]|e]; cbn; eauto.
Qed.

(** C6.  The writer never raises: it returns a status.  An exception of any
    data-base step gives [failed] with the exception's text.  Otherwise: no
    row for the SKU gives [failed] "Product not found"; a row that agrees on
    every compared field is only touched ([last_update]) and gives
    [no_update]; a row that differs in some field is rewritten with all the
    mapped fields, the time stamp and the update flag, and gives [updated]
    when at least one row was affected and [failed] "No rows updated" when
    none was. *)
Theorem update_product_in_db_outcomes (self : Config) (db : DbBehaviour)
    (pd : RemoteAnswer) :
  exists cmds w,
    update_product_in_db self db pd = (cmds, Ok w) /\
    (forall e, on_cursor db = Raise e -> w = failed_with (exn_str e)) /\
    (on_cursor db = Ok tt ->
     (forall e, on_select db = Raise e -> w = failed_with (exn_str e)) /\
     (on_select db = Ok None ->
      w = failed_with "Product not found" /\
      cmds = [SelectProduct (sku pd)]) /\
     (forall row, on_select db = Ok (Some row) ->
        (fields_agree self row pd ->
         cmds = [SelectProduct (sku pd); UpdateLastUpdate (sku pd)] /\
         (on_touch db = Ok tt ->
          w = {| status := no_update; message := None |}) /\
         (forall e, on_touch db = Raise e -> w = failed_with (exn_str e))) /\
        (~ fields_agree self row pd ->
         cmds = [SelectProduct (sku pd);
                 UpdateProduct (price pd) (quantity pd) (availability pd)
                   (brand pd) (handling_time_omd self)
                   (provider_specific_handling_time self) (handlingTime pd)
                   (update_flag_value self) (sku pd)] /\
         (forall n, on_update db = Ok n ->
            ((1 <= n)%N -> w = {| status := updated; message := None |}) /\
            (n = 0%N -> w = failed_with "No rows updated") /\
            (status w = updated <-> (1 <= n)%N)) /\
         (forall e, on_update db = Raise e -> w = failed_with (exn_str e))))).
Proof.
  unfold update_product_in_db, update_try, failed_with.
  destruct (on_cursor db) as [[]|e].
  2:{ do 2 eexists. split; [reflexivity|]. split; [|discriminate].
      now intros ? [= <-]. }
  destruct (on_select db) as [[row|]|e].
  3:{ do 2 eexists. split; [reflexivity|]. split; [discriminate|].
      intros _. repeat split; try discriminate. now intros ? [= <-]. }
  2:{ do 2 eexists. split; [reflexivity|]. split; [discriminate|].
      intros _. repeat split; discriminate. }
  destruct (has_changes self row pd) eqn:Hc.
  - apply has_changes_true_iff in Hc. cbn [negb].
    destruct (on_update db) as [n|e].
    + destruct (n =? 0)%N eqn:Hn;
        [apply N.eqb_eq in Hn | apply N.eqb_neq in Hn];
        do 2 eexists; (split; [reflexivity|]);
        (split; [discriminate|]); intros _;
        (split; [discriminate|]); (split; [discriminate|]);
        intros ? [= <-]; (split; [intro; contradiction|]); intros _;
        (split; [reflexivity|]); (split; [|discriminate]);
        intros ? [= <-]; cbn [try_except status].
      * repeat split; try lia; try discriminate.
      * repeat split; try lia; try reflexivity.
    + do 2 eexists. split; [reflexivity|].
      split; [discriminate|]. intros _.
      split; [discriminate|]. split; [discriminate|].
      intros ? [= <-]. split; [intro; contradiction|]. intros _.
      split; [reflexivity|]. split; [discriminate|].
      now intros ? [= <-].
  - apply has_changes_false_iff in Hc. cbn [negb].
    destruct (on_touch db) as [[]|e];
      do 2 eexists; (split; [reflexivity|]);
      (split; [discriminate|]); intros _;
      (split; [discriminate|]); (split; [discriminate|]);
      intros ? [= <-]; (split; [|intro; contradiction]); intros _;
      (split; [reflexivity|]).
    + split; [reflexivity|discriminate].
    + split; [discriminate|]. now intros ? [= <-].
Qed.

(** *** Slices and chunks *)

Lemma firstn_plus {A} (n m : nat) (l : list A) :
  firstn (n + m) l = firstn n l ++ firstn m (skipn n l).
Proof.
  revert l. induction n as [|n IH]; intros [|x l]; cbn;
    try reflexivity.
  - now rewrite firstn_nil.
  - now rewrite IH.
Qed.

Lemma slice_firstn_skipn {A} (l : list A) (i b : Z) :
  0 <= i -> 0 <= b ->
  slice l i (i + b) = firstn (Z.to_nat b) (skipn (Z.to_nat i) l).
Proof.
  intros Hi Hb. unfold slice, slice_index.
  destruct (i <? 0) eqn:E1; [apply Z.ltb_lt in E1; lia|].
  destruct (i + b <? 0) eqn:E2; [apply Z.ltb_lt in E2; lia|].
  set (n := Z.of_nat (List.length l)).
  destruct (Z.le_gt_cases i n) as [Hin|Hin].
  - rewrite (Z.min_l i n) by lia.
    destruct (Z.le_gt_cases (i + b) n) as [Hb'|Hb'].
    + rewrite (Z.min_l (i + b) n) by lia. f_equal. lia.
    + rewrite (Z.min_r (i + b) n) by lia.
      rewrite !firstn_all2; try reflexivity;
        rewrite length_skipn; subst n; lia.
  - rewrite (Z.min_r i n), (Z.min_r (i + b) n) by lia.
    rewrite Z.sub_diag. cbn [Z.to_nat firstn].
    rewrite (skipn_all2 (n := Z.to_nat i)) by (subst n; lia).
    now rewrite firstn_nil.
Qed.

Lemma concat_firstn_skipn {A} (b : nat) (l : list A) (cnt : nat) :
  List.concat (map (fun k => firstn b (skipn (k * b) l)) (seq 0 cnt))
  = firstn (cnt * b) l.
Proof.
  induction cnt as [|cnt IH]; [reflexivity|].
  rewrite seq_S, map_app, concat_app, IH. cbn [map List.concat Nat.add].
  rewrite app_nil_r.
  replace (S cnt * b)%nat with (cnt * b + b)%nat by lia.
  now rewrite firstn_plus.
Qed.

Lemma chunks_concat {A} (l : list A) (size : Z) :
  0 < size -> List.concat (chunks l size) = l.
Proof.
  intro Hs. unfold chunks, range, len.
  destruct (size =? 0) eqn:E0; [apply Z.eqb_eq in E0; lia|].
  destruct (0 <? size) eqn:E1; [|apply Z.ltb_ge in E1; lia].
  rewrite map_map.
  rewrite (map_ext _
             (fun k => firstn (Z.to_nat size)
                         (skipn (k * Z.to_nat size) l))).
  - rewrite concat_firstn_skipn. apply firstn_all2.
    set (n := Z.of_nat (List.length l)).
    assert (n <= (n - 0 + size - 1) / size * size).
    { pose proof (Z.div_mod (n - 0 + size - 1) size) as Hd.
      pose proof (Z.mod_pos_bound (n - 0 + size - 1) size Hs). lia. }
    assert (0 <= (n - 0 + size - 1) / size)
      by (apply Z.div_pos; subst n; lia).
    subst n. nia.
  - intro k. rewrite slice_firstn_skipn by lia. do 2 f_equal. lia.
Qed.

Lemma Forall2_Permutation_concat {A} (ps qs : list (list A)) :
  Forall2 (@Permutation A) ps qs -> Permutation (List.concat ps) (List.concat qs).
Proof.
  induction 1; cbn; [constructor|]. now apply Permutation_app.
Qed.

Lemma collect_oks {A} (l : list A) : collect (map Ok l) = Ok l.
Proof.
  induction l as [|a l IH]; [reflexivity|]. cbn. now rewrite IH.
Qed.

Lemma reconciled_skus_app (e1 e2 : list Event) :
  reconciled_skus (e1 ++ e2) = reconciled_skus e1 ++ reconciled_skus e2.
Proof. apply flat_map_app. Qed.

(** The answer of the fetcher carries the SKU it was asked for. *)
Lemma retry_loop_sku (self : Config) (sku : string) (max_retries : Z)
    (remote : Z -> HttpResult) (attempts : list Z) :
  forall st a st',
    (forall c, last_valid_response st = Some c -> Provider.sku c = sku) ->
    (forall c, product_data st = Some c -> Provider.sku c = sku) ->
    retry_loop self sku max_retries remote attempts st = Ok (a, st') ->
    Provider.sku a = sku.
Proof.
  induction attempts as [|attempt rest IH]; intros st a st' Hl Hp.
  - cbn. destruct (last_valid_response st) as [c|] eqn:El;
      [|destruct (product_data st) as [c|] eqn:Ep];
      intros [= <- <-]; auto.
  - cbn [retry_loop].
    destruct (attempt_body_cases self sku max_retries attempt
                (remote attempt) st)
      as (pd & Hpd & [[_ H]|[(_ & _ & H)|(_ & _ & H)]]);
      rewrite H; cbn [bind];
      pose proof (fetch_product_data_sku _ _ _ _ Hpd) as Hs.
    + now intros [= <- <-].
    + apply IH; cbn.
      * intros c.
        destruct (is_better_response pd (last_valid_response st));
          [now intros [= <-]|apply Hl].
      * now intros c [= <-].
    + intros [= <- <-].
      destruct (is_better_response pd (last_valid_response st));
        [exact Hs|].
      destruct (last_valid_response st) as [c|] eqn:El; cbn; auto.
Qed.

(** *** The batch runner *)

Section BatchFacts.

Variable self : Config.
Variable remote : string -> Z -> HttpResult.
Variable as_completed : forall A : Type, list A -> list A.
Variable db : nat -> DbBehaviour.
Variable batch_size max_concurrent : Z.

(** The futures of a window all complete, in some order. *)
Hypothesis as_completed_permutes :
  forall (A : Type) (l : list A), Permutation (as_completed A l) l.
Hypothesis batch_size_positive : 0 < batch_size.
Hypothesis max_concurrent_positive : 0 < max_concurrent.

#[local] Abbreviation written st := (reconciled_skus (events st)).
#[local] Abbreviation done st := (List.length (results_so_far st)).

(** The answer the fetcher gives for a SKU under the default policy. *)
Definition answer_of (sku : string) : RemoteAnswer :=
  match fetch_product_data_with_retry self sku 3 (remote sku) with
  | Ok (a, _) => a
  | Raise _ => fallback_answer self sku
  end.

Lemma answer_of_sku (sku : string) : Provider.sku (answer_of sku) = sku.
Proof.
  unfold answer_of.
  destruct (fetch_product_data_with_retry self sku 3 (remote sku))
    as [[a st]|e] eqn:E; [|reflexivity].
  eapply retry_loop_sku; [| |exact E]; cbn; discriminate.
Qed.

Lemma future_result (sku : string) :
  (r <- fetch_product_data_with_retry self sku 3 (remote sku) ;; Ok (fst r))
  = Ok (answer_of sku).
Proof.
  unfold answer_of.
  unfold fetch_product_data_with_retry.
  destruct (retry_loop_returns self sku 3 (remote sku) (range2 1 (3 + 1))
              initial_state) as (a & st & E).
  - exists 3. split; [apply in_range2|]; lia.
  - now rewrite E.
Qed.

Lemma write_all_spec (products_data : list RemoteAnswer) :
  forall acc,
  exists acc',
    write_all self db products_data acc = Ok acc' /\
    List.length (fst acc')
    = (List.length (fst acc) + List.length products_data)%nat /\
    results_so_far (snd acc') = results_so_far (snd acc) /\
    written (snd acc')
    = written (snd acc) ++ map Provider.sku products_data.
Proof.
  induction products_data as [|pd rest IH]; intros [batch_results st].
  - eexists. split; [reflexivity|]. cbn. rewrite app_nil_r. auto.
  - cbn [write_all]. unfold write_one.
    destruct (update_product_in_db_never_raises self (db (db_calls st)) pd)
      as (cmds & w & E).
    rewrite E. cbn [bind].
    edestruct IH as (acc' & -> & Hlen & Hres & Hw).
    eexists. split; [reflexivity|].
    rewrite Hlen, Hres, Hw. cbn [fst snd results_so_far events].
    rewrite length_app, reconciled_skus_app. cbn.
    rewrite <- app_assoc. repeat split. lia.
Qed.

Lemma process_window_spec (concurrent_batch : list string) (st : BatchState) :
  exists st' part,
    process_window self remote as_completed db max_concurrent
      concurrent_batch st = Ok st' /\
    done st' = (done st + List.length concurrent_batch)%nat /\
    written st' = written st ++ part /\
    Permutation part concurrent_batch.
Proof.
  unfold process_window.
  destruct (max_concurrent <=? 0) eqn:E; [apply Z.leb_le in E; lia|].
  rewrite (map_ext _ (fun sku => Ok (answer_of sku)) future_result).
  rewrite <- (map_map answer_of Ok).
  destruct (Permutation_map_inv _ _
              (as_completed_permutes _
                 (map Ok (map answer_of concurrent_batch))))
    as (products_data & -> & Hperm).
  rewrite collect_oks. cbn [bind].
  destruct (write_all_spec products_data ([], st))
    as ([batch_results st1] & -> & Hlen & Hres & Hw).
  cbn [bind fst snd] in *.
  do 2 eexists. split; [reflexivity|].
  cbn [results_so_far events]. rewrite Hres, length_app, Hlen, Hw.
  split; [|split; [reflexivity|]].
  - cbn. apply Permutation_length in Hperm.
    rewrite length_map in Hperm. lia.
  - apply Permutation_sym.
    rewrite <- (map_id concurrent_batch) at 1.
    rewrite <- (map_ext _ _ answer_of_sku), <- map_map.
    now apply Permutation_map.
Qed.

Lemma sleep_keeps (seconds : Z) (st : BatchState) (b : bool) :
  done (if b then sleep seconds st else st) = done st /\
  written (if b then sleep seconds st else st) = written st.
Proof.
  destruct b; cbn; [|auto].
  rewrite reconciled_skus_app. cbn. now rewrite app_nil_r.
Qed.

Lemma window_loop_spec (batch : list string) (js : list Z) :
  forall st,
  exists st' parts,
    window_loop self remote as_completed db max_concurrent batch js st
    = Ok st' /\
    done st'
    = (done st
       + List.length
           (List.concat
              (map (fun j => slice batch j (j + max_concurrent)) js)))%nat /\
    written st' = written st ++ List.concat parts /\
    Forall2 (@Permutation string) parts
      (map (fun j => slice batch j (j + max_concurrent)) js).
Proof.
  induction js as [|j rest IH]; intros st.
  - exists st, []. cbn. rewrite app_nil_r. repeat split; [lia|constructor].
  - cbn [window_loop].
    destruct (process_window_spec (slice batch j (j + max_concurrent)) st)
      as (st1 & part & -> & Hd & Hw & Hp).
    cbn [bind].
    destruct (sleep_keeps 1 st1 (j + max_concurrent <? len batch))
      as [Hd2 Hw2].
    edestruct IH as (st' & parts & -> & Hd' & Hw' & Hf).
    exists st', (part :: parts). split; [reflexivity|].
    rewrite Hd', Hw', Hd2, Hw2, Hd, Hw.
    cbn [map List.concat]. rewrite length_app, <- app_assoc.
    repeat split; [lia|]. now constructor.
Qed.

Lemma batch_loop_spec (skus : list string) (starts : list Z) :
  forall st,
  exists st' parts,
    batch_loop self remote as_completed db batch_size max_concurrent
      skus starts st = Ok st' /\
    done st'
    = (done st
       + List.length
           (List.concat
              (map (fun i => slice skus i (i + batch_size)) starts)))%nat /\
    written st' = written st ++ List.concat parts /\
    Forall2 (@Permutation string) parts
      (map (fun i => slice skus i (i + batch_size)) starts).
Proof.
  induction starts as [|i rest IH]; intros st.
  - exists st, []. cbn. rewrite app_nil_r. repeat split; [lia|constructor].
  - cbn [batch_loop].
    set (batch := slice skus i (i + batch_size)).
    pose proof (chunks_concat batch max_concurrent max_concurrent_positive)
      as Hchunks.
    unfold chunks in Hchunks.
    destruct (range 0 (len batch) max_concurrent) as [js|e] eqn:Er.
    2:{ unfold range in Er.
        destruct (max_concurrent =? 0) eqn:E0;
          [apply Z.eqb_eq in E0; lia|discriminate]. }
    cbn [bind].
    destruct (window_loop_spec batch js st)
      as (st1 & wparts & -> & Hd & Hw & Hf).
    cbn [bind].
    destruct (sleep_keeps 2 st1 (i + batch_size <? len skus)) as [Hd2 Hw2].
    edestruct IH as (st' & parts & -> & Hd' & Hw' & Hf').
    exists st', (List.concat wparts :: parts). split; [reflexivity|].
    rewrite Hd', Hw', Hd2, Hw2, Hd, Hw, Hchunks.
    cbn [map List.concat]. rewrite length_app, <- app_assoc.
    subst batch. repeat split; [lia|]. constructor; [|exact Hf'].
    rewrite <- Hchunks. now apply Forall2_Permutation_concat.
Qed.

(** C9.  With a positive batch size and a positive concurrency limit, and
    whatever the product API, the data base and the scheduler do, the report
    counts exactly as many results as there are SKUs; the groups of
    [batch_size] SKUs are written one after the other in the order of the
    list, each in some order of completion. *)
Theorem process_products_processes_every_sku (skus : list string) :
  exists report evs,
    process_products self remote as_completed db batch_size max_concurrent
      skus = Ok (report, evs) /\
    total_processed report = len skus /\
    len (results report) = len skus /\
    List.concat (chunks skus batch_size) = skus /\
    exists parts,
      reconciled_skus evs = List.concat parts /\
      Forall2 (@Permutation string) parts (chunks skus batch_size).
Proof.
  pose proof (chunks_concat skus batch_size batch_size_positive) as Hchunks.
  unfold process_products. unfold chunks in *.
  destruct (range 0 (len skus) batch_size) as [starts|e] eqn:Er.
  2:{ unfold range in Er.
      destruct (batch_size =? 0) eqn:E0;
        [apply Z.eqb_eq in E0; lia|discriminate]. }
  cbn [bind].
  edestruct (batch_loop_spec skus starts) as (st' & parts & -> & Hd & Hw & Hf).
  cbn [bind]. do 2 eexists. split; [reflexivity|].
  cbn [total_processed results results_so_far events] in *.
  rewrite Hchunks in Hd. unfold len. rewrite Hd. cbn [List.length Nat.add].
  repeat split; try exact Hchunks.
  exists parts. split; [exact Hw|exact Hf].
Qed.

End BatchFacts.

Lemma process_products_processes_every_sku_witness :
  exists report evs,
    process_products default_config (fun _ _ => HTimeout)
      (fun A l => rev l) (fun _ => db_without_rows) 4 3 test_skus
    = Ok (report, evs) /\
    total_processed report = len test_skus /\
    len (results report) = len test_skus /\
    List.concat (chunks test_skus 4) = test_skus /\
    exists parts,
      reconciled_skus evs = List.concat parts /\
      Forall2 (@Permutation string) parts (chunks test_skus 4).
Proof.
  apply (process_products_processes_every_sku
           default_config (fun _ _ => HTimeout) (fun A l => rev l)
           (fun _ => db_without_rows) 4 3).
  - intros A l. apply Permutation_sym, Permutation_rev.
  - lia.
  - lia.
Defined.

(** The run of [test_python_provider]'s call, against an API that never
    answers and a data base without rows: eight SKUs, eight results. *)
Example process_products_eight_skus :
  match process_products default_config (fun _ _ => HTimeout)
          (fun A l => rev l) (fun _ => db_without_rows) 4 3 test_skus with
  | Ok (report, evs) =>
      total_processed report = 8 /\
      failed_count report = 8 /\
      reconciled_skus evs
      = ["6577453"; "6583949"; "6569319"; "6529313";
         "6568259"; "6442037"; "6519664"; "6537630"]
  | Raise _ => False
  end.
Proof. vm_compute. repeat split. Qed.

(** Outside the positive sizes: a batch size of zero raises, a negative one
    processes nothing. *)
Example process_products_zero_batch_size :
  raises (process_products default_config (fun _ _ => HTimeout)
            (fun A l => l) (fun _ => db_without_rows) 0 3 test_skus) = true.
Proof. reflexivity. Qed.

Example process_products_negative_batch_size :
  match process_products default_config (fun _ _ => HTimeout)
          (fun A l => l) (fun _ => db_without_rows) (-1) 3 test_skus with
  | Ok (report, _) => total_processed report = 0
  | Raise _ => False
  end.
Proof. vm_compute. reflexivity. Qed.

End ProviderFacts.

Module Phase2Facts.

Import Py Phase2.

Section DriverFacts.

Variable MAX_RETRIES RETRY_DELAY_SECONDS STATUS_CHECK_INTERVAL : Z.
Variable validar_feed_json : Feed -> Exc bool.

#[local] Abbreviation poll :=
  (poll_loop RETRY_DELAY_SECONDS STATUS_CHECK_INTERVAL).

(** A status body that [verificar_status_feed] returns is a terminal one:
    DONE, CANCELLED or FATAL. *)
Lemma poll_loop_terminal (responses : Z -> Http FeedStatus)
    (attempts : list Z) :
  forall slept feed_status slept',
    poll responses attempts slept = (Some feed_status, slept') ->
    processingStatus feed_status = Some "DONE" \/
    processingStatus feed_status = Some "CANCELLED" \/
    processingStatus feed_status = Some "FATAL".
Proof.
  induction attempts as [|attempt rest IH]; intros slept fs slept';
    cbn [poll_loop]; [discriminate|].
  unfold poll_body, poll_try.
  destruct (responses attempt) as [e|code h json]; [apply IH|].
  destruct (code =? 200).
  - destruct json as [fs'|e]; cbn [bind]; [|apply IH].
    unfold status_is.
    destruct (processingStatus fs') as [x|] eqn:Ex; [|apply IH].
    destruct (String.eqb x "DONE") eqn:E1.
    { apply String.eqb_eq in E1. intros [= <- _]. subst x. auto. }
    destruct (String.eqb x "CANCELLED") eqn:E2.
    { apply String.eqb_eq in E2. intros [= <- _]. subst x. auto. }
    destruct (String.eqb x "FATAL") eqn:E3.
    { apply String.eqb_eq in E3. intros [= <- _]. subst x. auto. }
    apply IH.
  - destruct (code =? 429); [|apply IH].
    destruct (header_int h RETRY_DELAY_SECONDS) as [d|e]; cbn [bind];
      [|apply IH].
    destruct (checked_sleep d) as [d'|e]; cbn [bind]; apply IH.
Qed.

#[local] Abbreviation one_slice :=
  (process_slice MAX_RETRIES RETRY_DELAY_SECONDS STATUS_CHECK_INTERVAL
     validar_feed_json).
#[local] Abbreviation slices :=
  (slice_loop MAX_RETRIES RETRY_DELAY_SECONDS STATUS_CHECK_INTERVAL
     validar_feed_json).

Lemma started_slices_app (e1 e2 : list Event) :
  started_slices (e1 ++ e2) = started_slices e1 ++ started_slices e2.
Proof. apply flat_map_app. Qed.

Lemma started_slices_slept (l : list Z) : started_slices (map Slept l) = [].
Proof. induction l; [reflexivity|assumption]. Qed.

(** A slice starts exactly once, whatever happens to it afterwards. *)
Lemma process_slice_started (w : SliceWorld) (AMAZON_CONFIG : AmazonConfig)
    (batch_num : Z) (batch_data : list FeedRow) :
  started_slices (fst (one_slice w AMAZON_CONFIG batch_num batch_data))
  = [batch_num].
Proof.
  unfold process_slice.
  destruct (create_inventory_feed_phase2 _ _ _); [|reflexivity].
  destruct (create_feed_document _); [|reflexivity].
  destruct (upload_feed_to_s3 _ _); cbn [negb]; [|reflexivity].
  destruct (enviar_feed _ _ _) as [[feed_id|] slept1].
  2:{ cbn [fst]. rewrite started_slices_app, started_slices_slept.
      reflexivity. }
  destruct (verificar_status_feed _ _ _ _) as [[fs|] slept2].
  2:{ cbn [fst]. rewrite !started_slices_app, !started_slices_slept.
      reflexivity. }
  destruct (resultFeedDocumentId fs); cbn [fst];
    rewrite !started_slices_app, !started_slices_slept; reflexivity.
Qed.

(** A slice counts as done only when the status polling returned a terminal
    status body that carries a result document: DONE, but CANCELLED and FATAL
    as well. *)
Lemma process_slice_done (w : SliceWorld) (AMAZON_CONFIG : AmazonConfig)
    (batch_num : Z) (batch_data : list FeedRow) :
  snd (one_slice w AMAZON_CONFIG batch_num batch_data) = true ->
  exists feed_status slept id,
    verificar_status_feed RETRY_DELAY_SECONDS STATUS_CHECK_INTERVAL
      (poll_responses w) 20 = (Some feed_status, slept) /\
    resultFeedDocumentId feed_status = Some id /\
    (processingStatus feed_status = Some "DONE" \/
     processingStatus feed_status = Some "CANCELLED" \/
     processingStatus feed_status = Some "FATAL").
Proof.
  unfold process_slice.
  destruct (create_inventory_feed_phase2 _ _ _); [|discriminate].
  destruct (create_feed_document _); [|discriminate].
  destruct (upload_feed_to_s3 _ _); cbn [negb]; [|discriminate].
  destruct (enviar_feed _ _ _) as [[feed_id|] slept1]; [|discriminate].
  destruct (verificar_status_feed _ _ _ _) as [[fs|] slept2] eqn:Ev;
    [|discriminate].
  destruct (resultFeedDocumentId fs) as [id|] eqn:Eid; [|discriminate].
  intros _. exists fs, slept2, id. repeat split; try assumption.
  exact (poll_loop_terminal _ _ _ _ _ Ev).
Qed.

(** The slice loop runs every slice, in order, whatever fails on the way;
    it ends with [success] still true only if every slice counted as done. *)
Lemma slice_loop_runs_every_slice (w : World) (AMAZON_CONFIG : AmazonConfig)
    (data : list FeedRow) (batch_size : Z) (batch_nums : list Z) :
  forall evs success,
    started_slices
      (fst (slices w AMAZON_CONFIG data batch_size batch_nums evs success))
    = started_slices evs ++ batch_nums /\
    (snd (slices w AMAZON_CONFIG data batch_size batch_nums evs success)
     = true ->
     success = true /\
     forall batch_num,
       In batch_num batch_nums ->
       snd (one_slice (slice_world w batch_num) AMAZON_CONFIG batch_num
              (slice data ((batch_num - 1) * batch_size)
                 (Z.min (batch_num * batch_size) (len data)))) = true).
Proof.
  induction batch_nums as [|batch_num rest IH]; intros evs success.
  - cbn. rewrite app_nil_r. split; [reflexivity|]. intros ->.
    split; [reflexivity|]. intros ? [].
  - cbn [slice_loop].
    pose proof (process_slice_started (slice_world w batch_num) AMAZON_CONFIG
                  batch_num
                  (slice data ((batch_num - 1) * batch_size)
                     (Z.min (batch_num * batch_size) (len data)))) as Hs.
    destruct (one_slice _ _ _ _) as [evs' ok] eqn:E.
    cbn [fst snd] in Hs.
    destruct (IH (evs ++ evs') (if ok then success else false)) as [H1 H2].
    split.
    + rewrite H1, started_slices_app, Hs, <- app_assoc. reflexivity.
    + intro Ht. destruct (H2 Ht) as [Hok Hall].
      destruct ok; [|discriminate].
      split; [exact Hok|].
      intros b [<-|Hin]; [|exact (Hall b Hin)].
      rewrite E. reflexivity.
Qed.

(** The builder on an empty row list: the document handed to the validation
    has the header and no message. *)
Lemma build_feed_empty (AMAZON_CONFIG : AmazonConfig) :
  build_feed AMAZON_CONFIG []
  = {| header := {| sellerId := seller_id AMAZON_CONFIG;
                    version := "2.0";
                    issueLocale := "en_US" |};
       messages := [] |}.
Proof. reflexivity. Qed.

(** Every document the builder makes has the shape the structural
    validation of the spec asks for. *)
Lemma built_messages_are_sequential (data : list FeedRow) :
  forall i, sequential_partial_updates i (build_messages i data) = true.
Proof.
  induction data as [|[[sku2 h] q] rest IH]; intro i; [reflexivity|].
  cbn [build_messages sequential_partial_updates messageId operationType].
  rewrite Z.eqb_refl, IH. reflexivity.
Qed.

Lemma built_feed_is_structurally_valid (AMAZON_CONFIG : AmazonConfig)
    (data : list FeedRow) :
  validar_feed_json_spec (build_feed AMAZON_CONFIG data) = Ok true.
Proof.
  unfold validar_feed_json_spec, build_feed. cbn [header version messages].
  rewrite built_messages_are_sequential. reflexivity.
Qed.

(** C4 (as amended).  When the extraction finds no changed row, phase 2 does
    nothing to the outside (no slice is started, nothing is submitted, no
    flag is reset) and reports a failure, not a success: [run_phase2]
    returns [False] and logs the phase as failed (as an error when returning
    the connection raised), [main_phase2] returns [False], and
    [process_in_batches] on an empty list returns [False] as well, whatever
    the structural validation is.  A document built from an empty row list
    is still a structurally valid document with an empty message list: it
    passes the structural validation of the spec and the builder returns
    it. *)
Theorem empty_extraction_is_reported_as_failure (w : World)
    (AMAZON_CONFIG : AmazonConfig) :
  execute (extract_db w) = Ok [] ->
  (exists log,
      run_phase2 MAX_RETRIES RETRY_DELAY_SECONDS STATUS_CHECK_INTERVAL
        validar_feed_json w = ([], (false, log)) /\
      (log = PhaseFailed \/ log = PhaseError) /\
      (release (extract_db w) = Ok tt -> log = PhaseFailed) /\
      (log = PhaseError -> exists e, release (extract_db w) = Raise e)) /\
  (release (extract_db w) = Ok tt ->
   main_phase2 MAX_RETRIES RETRY_DELAY_SECONDS STATUS_CHECK_INTERVAL
     validar_feed_json w = ([], Ok false)) /\
  process_in_batches MAX_RETRIES RETRY_DELAY_SECONDS STATUS_CHECK_INTERVAL
    validar_feed_json w AMAZON_CONFIG [] 9990 = ([], Ok false) /\
  validar_feed_json_spec (build_feed AMAZON_CONFIG []) = Ok true /\
  create_inventory_feed_phase2 validar_feed_json_spec AMAZON_CONFIG []
  = Some (build_feed AMAZON_CONFIG []) /\
  messages (build_feed AMAZON_CONFIG []) = [].
Proof.
  intros Hrows. split; [|split; [|split; [|split; [|split]]]].
  - unfold run_phase2, main_phase2, extract_updated_data_phase2.
    rewrite Hrows.
    destruct (amazon_credentials w) as [creds|];
      [|exists PhaseFailed; repeat split; auto; discriminate].
    destruct (connection (extract_db w)); cbn [negb];
      [|exists PhaseFailed; repeat split; auto; discriminate].
    destruct (release (extract_db w)) as [[]|e]; cbn [bind].
    + exists PhaseFailed. repeat split; auto; discriminate.
    + exists PhaseError. repeat split; auto; [discriminate|eauto].
  - intro Hrel.
    unfold main_phase2, extract_updated_data_phase2.
    rewrite Hrows, Hrel.
    destruct (amazon_credentials w) as [creds|]; [|reflexivity].
    destruct (connection (extract_db w)); reflexivity.
  - reflexivity.
  - apply built_feed_is_structurally_valid.
  - unfold create_inventory_feed_phase2.
    rewrite built_feed_is_structurally_valid. reflexivity.
  - reflexivity.
Qed.

End DriverFacts.

Lemma empty_extraction_is_reported_as_failure_witness :
  (exists log,
      run_phase2 3 60 30 accept_all (world_with [] "DONE")
      = ([], (false, log)) /\
      (log = PhaseFailed \/ log = PhaseError) /\
      (release (extract_db (world_with [] "DONE")) = Ok tt ->
       log = PhaseFailed) /\
      (log = PhaseError ->
       exists e, release (extract_db (world_with [] "DONE")) = Raise e)) /\
  (release (extract_db (world_with [] "DONE")) = Ok tt ->
   main_phase2 3 60 30 accept_all (world_with [] "DONE") = ([], Ok false)) /\
  process_in_batches 3 60 30 accept_all (world_with [] "DONE")
    sample_config [] 9990 = ([], Ok false) /\
  validar_feed_json_spec (build_feed sample_config []) = Ok true /\
  create_inventory_feed_phase2 validar_feed_json_spec sample_config []
  = Some (build_feed sample_config []) /\
  messages (build_feed sample_config []) = [].
Proof.
  apply (empty_extraction_is_reported_as_failure
           3 60 30 accept_all (world_with [] "DONE") sample_config).
  reflexivity.
Defined.

(** C4, refuted as stated: with no changed row (and everything else in
    order) [main_phase2] returns [False] and [run_phase2] logs the phase as
    failed. *)
Lemma empty_extraction_is_not_a_success :
  main_phase2 3 60 30 accept_all (world_with [] "DONE") = ([], Ok false) /\
  run_phase2 3 60 30 accept_all (world_with [] "DONE")
  = ([], (false, PhaseFailed)).
Proof. split; reflexivity. Qed.

(** C5 (defect of the code).  One slice whose feed ends in FATAL (or in
    CANCELLED) with a result document in the status body: the driver counts
    the slice as done, returns [True] and resets the update flag. *)
Theorem fatal_feed_still_resets_the_flag :
  process_in_batches 3 60 30 accept_all
    (world_with [("SEVC-6569319", 4, 20)] "FATAL") sample_config
    [("SEVC-6569319", 4, 20)] 9990
  = ([SliceStarted 1 [("SEVC-6569319", 4, 20)];
      FeedSaved 1 (build_feed sample_config [("SEVC-6569319", 4, 20)]);
      ReportRequested "amzn1.tortuga.out";
      FlagReset],
     Ok true) /\
  snd (process_in_batches 3 60 30 accept_all
         (world_with [("SEVC-6569319", 4, 20)] "CANCELLED") sample_config
         [("SEVC-6569319", 4, 20)] 9990) = Ok true /\
  snd (verificar_status_feed 60 30
         (poll_responses (slice_ending_in "FATAL")) 20)
  = [] /\
  option_map processingStatus
    (fst (verificar_status_feed 60 30
            (poll_responses (slice_ending_in "FATAL")) 20))
  = Some (Some "FATAL").
Proof. repeat split; vm_compute; reflexivity. Qed.

End Phase2Facts.

(* ================================================================== *)
(** ** The retrying fetcher, attempt by attempt *)
(* ================================================================== *)

Module FetcherRuns.

Import Py Provider ProviderFacts.

(** The update of line 131-132: the candidate after one more invalid
    answer. *)
Definition keep_better (last : option RemoteAnswer) (pd : RemoteAnswer)
  : option RemoteAnswer :=
  if is_better_response pd last then Some pd else last.

Section Runs.

Variable self : Config.
Variable sku : string.
Variable max_retries : Z.
Variable remote : Z -> HttpResult.

(** The answer of the single lookup of a given attempt. *)
Definition lookup (attempt : Z) : RemoteAnswer :=
  match fetch_product_data self sku (remote attempt) with
  | Ok a => a
  | Raise _ => fallback_answer self sku
  end.

Definition valid_at (attempt : Z) : bool :=
  is_valid (analyze_response (lookup attempt) sku attempt).

(** The delays slept after the attempts [from], ..., [to - 1]. *)
Definition delays (from to : Z) : list Z :=
  map (fun i => calculate_retry_delay i
                  (severity (analyze_response (lookup i) sku i)))
      (range2 from to).

(** The best candidate after the attempts [from], ..., [to - 1]. *)
Definition best (init : option RemoteAnswer) (from to : Z)
  : option RemoteAnswer :=
  fold_left keep_better (map lookup (range2 from to)) init.

Lemma lookup_eq (attempt : Z) :
  fetch_product_data self sku (remote attempt) = Ok (lookup attempt).
Proof.
  unfold lookup.
  destruct (fetch_product_data_total self sku (remote attempt)) as [a ->].
  reflexivity.
Qed.

Lemma delays_nil (k : Z) : delays k k = [].
Proof. unfold delays. now rewrite range2_nil by lia. Qed.

Lemma delays_cons (k j : Z) :
  k < j ->
  delays k j
  = calculate_retry_delay k (severity (analyze_response (lookup k) sku k))
    :: delays (k + 1) j.
Proof. intro H. unfold delays. now rewrite range2_cons by lia. Qed.

Lemma best_nil (init : option RemoteAnswer) (k : Z) : best init k k = init.
Proof. unfold best. now rewrite range2_nil by lia. Qed.

Lemma best_cons (init : option RemoteAnswer) (k j : Z) :
  k < j -> best init k j = best (keep_better init (lookup k)) (k + 1) j.
Proof. intro H. unfold best. now rewrite range2_cons by lia. Qed.

Lemma length_delays (k j : Z) : k <= j -> len (delays k j) = j - k.
Proof.
  intro H. unfold delays, range2, len. rewrite !length_map, length_seq. lia.
Qed.

(** The whole run of the loop from attempt [k] on: it goes through the
    invalid answers, sleeping after each, and stops at the first valid answer
    [j] or at the last attempt. *)
Lemma loop_trace (m : nat) :
  forall k st,
    Z.of_nat (S m) = max_retries + 1 - k ->
    exists j,
      k <= j <= max_retries /\
      (forall i, k <= i < j -> valid_at i = false) /\
      ((valid_at j = true /\
        retry_loop self sku max_retries remote (range2 k (max_retries + 1)) st
        = Ok (lookup j,
              {| last_valid_response := best (last_valid_response st) k j;
                 product_data := Some (lookup j);
                 slept := slept st ++ delays k j |})) \/
       (valid_at j = false /\ j = max_retries /\
        retry_loop self sku max_retries remote (range2 k (max_retries + 1)) st
        = Ok (or_else (best (last_valid_response st) k (j + 1)) (lookup j),
              {| last_valid_response :=
                   best (last_valid_response st) k (j + 1);
                 product_data := Some (lookup j);
                 slept := slept st ++ delays k j |}))).
Proof.
  induction m as [|m IH]; intros k st Hk;
    rewrite (range2_cons k) by lia; cbn [retry_loop];
    destruct (attempt_body_cases self sku max_retries k (remote k) st)
      as (pd & Hpd & Hcases);
    rewrite lookup_eq in Hpd; injection Hpd as <-;
    cbv zeta in Hcases;
    destruct Hcases as [[Hv H]|[(Hv & Hlt & H)|(Hv & Hge & H)]];
    rewrite H; cbn [bind]; try lia.
  - exists k. split; [lia|]. split; [intros; lia|]. left.
    split; [exact Hv|]. now rewrite best_nil, delays_nil, app_nil_r.
  - exists k. split; [lia|]. split; [intros; lia|]. right.
    split; [exact Hv|]. split; [lia|].
    rewrite delays_nil, app_nil_r, best_cons, best_nil by lia. reflexivity.
  - exists k. split; [lia|]. split; [intros; lia|]. left.
    split; [exact Hv|]. now rewrite best_nil, delays_nil, app_nil_r.
  - match goal with
    | |- context [retry_loop _ _ _ _ _ ?st1] =>
        destruct (IH (k + 1) st1 ltac:(lia)) as (j & Hj & Hinv & Hend)
    end.
    cbn [last_valid_response slept] in Hend.
    fold (keep_better (last_valid_response st) (lookup k)) in Hend |- *.
    exists j. split; [lia|]. split.
    { intros i Hi. destruct (Z.eq_dec i k) as [->|Hne];
        [exact Hv|apply Hinv; lia]. }
    rewrite (delays_cons k j), (best_cons _ k j), (best_cons _ k (j + 1))
      by lia.
    rewrite <- app_assoc in Hend. exact Hend.
Qed.

(** The same for the whole call. *)
Lemma run_trace :
  1 <= max_retries ->
  exists j,
    1 <= j <= max_retries /\
    (forall i, 1 <= i < j -> valid_at i = false) /\
    ((valid_at j = true /\
      fetch_product_data_with_retry self sku max_retries remote
      = Ok (lookup j,
            {| last_valid_response := best None 1 j;
               product_data := Some (lookup j);
               slept := delays 1 j |})) \/
     (valid_at j = false /\ j = max_retries /\
      fetch_product_data_with_retry self sku max_retries remote
      = Ok (or_else (best None 1 (j + 1)) (lookup j),
            {| last_valid_response := best None 1 (j + 1);
               product_data := Some (lookup j);
               slept := delays 1 j |}))).
Proof.
  intro H.
  exact (loop_trace (Z.to_nat (max_retries - 1)) 1 initial_state ltac:(lia)).
Qed.

Lemma valid_at_eq (attempt : Z) (pd : RemoteAnswer) (n : Z) :
  fetch_product_data self sku (remote attempt) = Ok pd ->
  is_valid (analyze_response pd sku n) = valid_at attempt.
Proof. rewrite lookup_eq. now intros [= <-]. Qed.

Lemma best_in (init : option RemoteAnswer) (k j : Z) :
  best init k j = init \/
  exists i, k <= i < j /\ best init k j = Some (lookup i).
Proof.
  unfold best.
  assert (H : forall l o,
             fold_left keep_better l o = o \/
             exists x, In x l /\ fold_left keep_better l o = Some x).
  { induction l as [|x l IH]; intro o; [now left|]. cbn [fold_left].
    destruct (IH (keep_better o x)) as [E|(y & Hy & E)].
    - rewrite E. unfold keep_better.
      destruct (is_better_response x o); [right|now left].
      exists x. split; [now left|reflexivity].
    - right. exists y. split; [now right|exact E]. }
  destruct (H (map lookup (range2 k j)) init) as [E|(x & Hx & E)];
    [now left|right].
  apply in_map_iff in Hx as (i & <- & Hi). apply in_range2 in Hi.
  exists i. split; [exact Hi|exact E].
Qed.

Lemma nth_error_seq_inv (N : nat) :
  forall s n x, nth_error (seq s N) n = Some x -> x = (s + n)%nat.
Proof.
  induction N as [|N IH]; intros s n x; [now destruct n|].
  destruct n as [|n]; cbn.
  - intros [= <-]. lia.
  - intro H. apply IH in H. lia.
Qed.

Lemma nth_error_delays (N : nat) (f : Z -> Z) (k : Z) (n : nat) (d : Z) :
  nth_error (map f (map (fun x => k + Z.of_nat x) (seq 0 N))) n = Some d ->
  d = f (k + Z.of_nat n).
Proof.
  rewrite !nth_error_map.
  destruct (nth_error (seq 0 N) n) as [x|] eqn:E; [|discriminate].
  apply nth_error_seq_inv in E. subst x. cbn. now intros [= <-].
Qed.

(** X1.  The fetcher never sleeps after its last attempt: a call makes at
    most [max_retries - 1] sleeps, and the n-th of them lasts 1000, 1500 or
    2000 ms times n. *)
Theorem fetcher_sleeps_between_attempts_only (a : RemoteAnswer)
    (st : LoopState) :
  1 <= max_retries ->
  fetch_product_data_with_retry self sku max_retries remote = Ok (a, st) ->
  len (slept st) <= max_retries - 1 /\
  forall n d,
    nth_error (slept st) n = Some d ->
    d = 1000 * (Z.of_nat n + 1) \/
    d = 1500 * (Z.of_nat n + 1) \/
    d = 2000 * (Z.of_nat n + 1).
Proof.
  intros Hmax Hrun.
  destruct (run_trace Hmax) as (j & Hj & _ & [[_ E]|(_ & _ & E)]);
    rewrite E in Hrun; injection Hrun as <- <-; cbn [slept];
    (split; [rewrite length_delays; lia|]);
    intros n d Hn; apply nth_error_delays in Hn; subst d;
    replace (1 + Z.of_nat n) with (Z.of_nat n + 1) by lia;
    destruct (severity _);
    rewrite ?calculate_retry_delay_low, ?calculate_retry_delay_medium,
      ?calculate_retry_delay_high; auto.
Qed.

(** X2.  The first attempt whose answer passes validation ends the call:
    that answer is returned, after one sleep per earlier attempt. *)
Theorem first_valid_answer_is_returned (j : Z) :
  1 <= j <= max_retries ->
  (forall i, 1 <= i < j -> valid_at i = false) ->
  valid_at j = true ->
  exists st,
    fetch_product_data_with_retry self sku max_retries remote
    = Ok (lookup j, st) /\
    len (slept st) = j - 1 /\
    fetch_product_data self sku (remote j) = Ok (lookup j).
Proof.
  intros Hj Hbefore Hvalid.
  destruct (run_trace ltac:(lia)) as (j' & Hj' & Hinv & Hend).
  assert (j' = j) as ->.
  { destruct (Z.lt_trichotomy j' j) as [Hlt|[Heq|Hgt]]; [|exact Heq|].
    - destruct Hend as [[Hv _]|(_ & Hm & _)]; [|lia].
      rewrite Hbefore in Hv by lia. discriminate.
    - rewrite Hinv in Hvalid by lia. discriminate. }
  destruct Hend as [[_ E]|(Hv & _)]; [|congruence].
  eexists. split; [exact E|]. cbn [slept].
  split; [rewrite length_delays; lia|apply lookup_eq].
Qed.

(** X3.  The answer returned is always the answer of one of the attempts
    made (never one the fetcher made up), and it carries the SKU asked
    for. *)
Theorem returned_answer_is_an_attempt_answer :
  1 <= max_retries ->
  exists a st i,
    fetch_product_data_with_retry self sku max_retries remote = Ok (a, st) /\
    1 <= i <= max_retries /\
    fetch_product_data self sku (remote i) = Ok a /\
    Provider.sku a = sku.
Proof.
  intro Hmax.
  assert (Hsku : forall i, Provider.sku (lookup i) = sku)
    by (intro i; exact (fetch_product_data_sku _ _ _ _ (lookup_eq i))).
  destruct (run_trace Hmax) as (j & Hj & _ & [[_ E]|(_ & _ & E)]).
  - exists (lookup j). eexists. exists j.
    split; [exact E|]. split; [lia|]. split; [apply lookup_eq|apply Hsku].
  - destruct (best_in None 1 (j + 1)) as [Eb|(i & Hi & Eb)];
      rewrite Eb in E; cbn [or_else] in E.
    + exists (lookup j). eexists. exists j.
      split; [exact E|]. split; [lia|]. split; [apply lookup_eq|apply Hsku].
    + exists (lookup i). eexists. exists i.
      split; [exact E|]. split; [lia|]. split; [apply lookup_eq|apply Hsku].
Qed.

(** X4.  An answer that fails validation is returned only when the budget
    is exhausted: then every attempt was made, every answer failed
    validation, and the fetcher slept [max_retries - 1] times. *)
Theorem invalid_answer_means_exhaustion (a : RemoteAnswer) (st : LoopState) :
  1 <= max_retries ->
  fetch_product_data_with_retry self sku max_retries remote = Ok (a, st) ->
  is_valid (analyze_response a sku max_retries) = false ->
  (forall i, 1 <= i <= max_retries -> valid_at i = false) /\
  len (slept st) = max_retries - 1.
Proof.
  intros Hmax Hrun Hinvalid.
  destruct (run_trace Hmax) as (j & Hj & Hinv & [[Hv E]|(Hv & -> & E)]);
    rewrite E in Hrun; injection Hrun as <- <-.
  - unfold valid_at in Hv.
    change (is_valid (analyze_response (lookup j) sku j))
      with (is_valid (analyze_response (lookup j) sku max_retries)) in Hv.
    congruence.
  - cbn [slept]. split; [|rewrite length_delays; lia].
    intros i Hi. destruct (Z.eq_dec i max_retries) as [->|Hne];
      [exact Hv|apply Hinv; lia].
Qed.

(** What every retained candidate is: an answer that failed validation,
    with one of the two availability literals. *)
Definition candidate_ok (a : RemoteAnswer) : Prop :=
  is_valid (analyze_response a sku 0) = false /\
  (availability a = "inStock" \/ availability a = "outOfStock").

Lemma lookup_availability (i : Z) :
  availability (lookup i) = "inStock" \/
  availability (lookup i) = "outOfStock".
Proof.
  pose proof (lookup_eq i) as H.
  destruct (fetch_product_data_cases self sku (remote i))
    as [E | (av & p & b & E)];
    rewrite E in H; injection H as <-; cbn; [now right|].
  destruct (String.eqb (lower av) "instock"); auto.
Qed.

Lemma keep_better_step (x pd : RemoteAnswer) :
  candidate_ok x -> candidate_ok pd ->
  exists x',
    keep_better (Some x) pd = Some x' /\
    candidate_ok x' /\
    ((0 < price x)%Q \/ (0 < price pd)%Q -> (0 < price x')%Q) /\
    (availability x = "inStock" \/ availability pd = "inStock" ->
     availability x' = "inStock").
Proof.
  intros [Hx Hax] [Hpd Hapd]. unfold keep_better.
  destruct (is_better_response pd (Some x)) eqn:Hb.
  - exists pd. split; [reflexivity|]. split; [now split|].
    destruct (is_better_inv _ _ Hb) as [[Hp Hz]|[Hin Hout]]; split.
    + auto.
    + intros [Hs|Hs]; [|exact Hs].
      pose proof (invalid_in_stock_priced _ _ _ Hx Hs). lra.
    + intros _. exact (invalid_in_stock_priced _ _ _ Hpd Hin).
    + auto.
  - exists x. split; [reflexivity|]. split; [now split|]. split.
    + intros [Hp|Hp]; [exact Hp|].
      destruct (invalid_inv _ _ _ Hx) as [[_ H]|[[_ H]|[[H _]|H]]];
        try assumption; try lra.
      rewrite (is_better_intro_price _ _ Hp H) in Hb. discriminate.
    + intros [Hs|Hs]; [exact Hs|].
      destruct Hax as [H|H]; [exact H|].
      rewrite (is_better_intro_stock _ _ Hs H) in Hb. discriminate.
Qed.

Lemma keep_better_fold (l : list RemoteAnswer) :
  forall x,
    candidate_ok x -> Forall candidate_ok l ->
    exists y,
      fold_left keep_better l (Some x) = Some y /\
      candidate_ok y /\
      ((0 < price x)%Q \/ Exists (fun a => (0 < price a)%Q) l ->
       (0 < price y)%Q) /\
      (availability x = "inStock" \/
       Exists (fun a => availability a = "inStock") l ->
       availability y = "inStock").
Proof.
  induction l as [|pd l IH]; intros x Hx Hl.
  - exists x. split; [reflexivity|]. split; [exact Hx|].
    split; intros [H|H]; try exact H; inversion H.
  - inversion Hl as [|? ? Hpd Hl']; subst. cbn [fold_left].
    destruct (keep_better_step x pd Hx Hpd) as (x' & -> & Hx' & Hp & Hs).
    destruct (IH x' Hx' Hl') as (y & -> & Hy & Hp' & Hs').
    exists y. split; [reflexivity|]. split; [exact Hy|]. split.
    + intros [H|H]; [apply Hp'; left; auto|].
      inversion H; subst; [apply Hp'; left; auto|apply Hp'; now right].
    + intros [H|H]; [apply Hs'; left; auto|].
      inversion H; subst; [apply Hs'; left; auto|apply Hs'; now right].
Qed.

(** X5.  When every attempt fails validation, the answer returned is the
    best one seen: it has a positive price if the answer of any attempt had
    one, and it is in stock if the answer of any attempt was. *)
Theorem exhausted_fetcher_returns_the_best_seen (a : RemoteAnswer)
    (st : LoopState) :
  1 <= max_retries ->
  fetch_product_data_with_retry self sku max_retries remote = Ok (a, st) ->
  (forall i, 1 <= i <= max_retries -> valid_at i = false) ->
  ((exists i, 1 <= i <= max_retries /\ (0 < price (lookup i))%Q) ->
   (0 < price a)%Q) /\
  ((exists i, 1 <= i <= max_retries /\ availability (lookup i) = "inStock") ->
   availability a = "inStock").
Proof.
  intros Hmax Hrun Hall.
  assert (Hok : forall i, 1 <= i <= max_retries -> candidate_ok (lookup i)).
  { intros i Hi. split; [exact (Hall i Hi)|apply lookup_availability]. }
  destruct (run_trace Hmax) as (j & Hj & _ & [[Hv _]|(_ & -> & E)]);
    [rewrite Hall in Hv by lia; discriminate|].
  rewrite E in Hrun. injection Hrun as <- _.
  rewrite best_cons by lia. unfold best.
  change (keep_better None (lookup 1)) with (Some (lookup 1)).
  destruct (keep_better_fold (map lookup (range2 (1 + 1) (max_retries + 1)))
              (lookup 1)) as (y & -> & _ & Hp & Hs).
  - apply Hok. lia.
  - apply Forall_forall. intros x Hx.
    apply in_map_iff in Hx as (i & <- & Hi). apply in_range2 in Hi.
    apply Hok. lia.
  - cbn [or_else]. split; intros (i & Hi & H).
    + apply Hp. destruct (Z.eq_dec i 1) as [->|Hne]; [now left|right].
      apply Exists_exists. exists (lookup i). split; [|exact H].
      apply in_map, in_range2. lia.
    + apply Hs. destruct (Z.eq_dec i 1) as [->|Hne]; [now left|right].
      apply Exists_exists. exists (lookup i). split; [|exact H].
      apply in_map, in_range2. lia.
Qed.

(** X6.  When every attempt fails at the transport level (a timeout or any
    other exception of the request), the fetcher returns the zero-price
    out-of-stock fallback after sleeping 1500 ms times the attempt number
    after each attempt but the last. *)
Theorem persistent_transport_failure_gives_the_fallback :
  1 <= max_retries ->
  (forall i, 1 <= i <= max_retries ->
             remote i = HTimeout \/ exists msg, remote i = HFailure msg) ->
  exists st,
    fetch_product_data_with_retry self sku max_retries remote
    = Ok (fallback_answer self sku, st) /\
    slept st = map (fun i => 1500 * i) (range2 1 max_retries).
Proof.
  intros Hmax Hfail.
  assert (Hl : forall i, 1 <= i <= max_retries ->
                         lookup i = fallback_answer self sku).
  { intros i Hi. unfold lookup.
    destruct (Hfail i Hi) as [->|[msg ->]]; reflexivity. }
  assert (Hd : forall j, j <= max_retries ->
                         delays 1 j = map (fun i => 1500 * i) (range2 1 j)).
  { intros j Hj. unfold delays. apply map_ext_in. intros i Hi.
    apply in_range2 in Hi. rewrite Hl by lia.
    apply calculate_retry_delay_medium. }
  destruct (run_trace Hmax) as (j & Hj & _ & [[Hv _]|(_ & -> & E)]).
  - unfold valid_at in Hv. rewrite Hl in Hv by lia. discriminate.
  - rewrite E, Hd by lia.
    assert (Ha : or_else (best None 1 (max_retries + 1)) (lookup max_retries)
                 = fallback_answer self sku).
    { destruct (best_in None 1 (max_retries + 1)) as [->|(i & Hi & ->)];
        cbn [or_else]; rewrite Hl by lia; reflexivity. }
    rewrite Ha. eexists. split; reflexivity.
Qed.

End Runs.

(** X7.  An answer never improves on itself, and between two answers that
    failed validation "better" goes one way only: the best candidate cannot
    flip back and forth. *)
Theorem is_better_response_goes_one_way (a b : RemoteAnswer) (sku : string)
    (n : Z) :
  is_better_response a (Some a) = false /\
  (is_valid (analyze_response a sku n) = false ->
   is_valid (analyze_response b sku n) = false ->
   is_better_response a (Some b) = true ->
   is_better_response b (Some a) = false).
Proof.
  split.
  - destruct (is_better_response a (Some a)) eqn:H; [|reflexivity].
    destruct (is_better_inv _ _ H) as [[H1 H2]|[H1 H2]];
      [lra|congruence].
  - intros Ha Hb Hab.
    destruct (is_better_response b (Some a)) eqn:Hba; [|reflexivity].
    destruct (is_better_inv _ _ Hab) as [[H1 H2]|[H1 H2]];
      destruct (is_better_inv _ _ Hba) as [[H3 H4]|[H3 H4]];
      try lra; try congruence.
    + pose proof (invalid_in_stock_priced _ _ _ Hb H3). lra.
    + pose proof (invalid_in_stock_priced _ _ _ Ha H1). lra.
Qed.

(** *** Concrete runs *)

(** Out of stock at $50, then in stock at $50. *)
Definition priced_then_valid : Z -> HttpResult :=
  fun attempt =>
    if attempt =? 1 then api_answer "outOfStock" 50 "Sony"
    else api_answer "inStock" 50 "Sony".

(** The state in which three timeouts leave the loop. *)
Definition after_three_timeouts : LoopState :=
  {| last_valid_response := Some (fallback_answer default_config "6569319");
     product_data := Some (fallback_answer default_config "6569319");
     slept := [1500; 3000] |}.

Lemma fetcher_sleeps_between_attempts_only_witness :
  len (slept after_three_timeouts) <= 3 - 1 /\
  forall n d,
    nth_error (slept after_three_timeouts) n = Some d ->
    d = 1000 * (Z.of_nat n + 1) \/
    d = 1500 * (Z.of_nat n + 1) \/
    d = 2000 * (Z.of_nat n + 1).
Proof.
  apply (fetcher_sleeps_between_attempts_only
           default_config "6569319" 3 always_timeout
           (fallback_answer default_config "6569319") after_three_timeouts).
  - lia.
  - vm_compute. reflexivity.
Defined.

Lemma first_valid_answer_is_returned_witness :
  exists st,
    fetch_product_data_with_retry default_config "6583949" 3 priced_then_valid
    = Ok (lookup default_config "6583949" priced_then_valid 2, st) /\
    len (slept st) = 2 - 1 /\
    fetch_product_data default_config "6583949" (priced_then_valid 2)
    = Ok (lookup default_config "6583949" priced_then_valid 2).
Proof.
  apply (first_valid_answer_is_returned
           default_config "6583949" 3 priced_then_valid 2).
  - lia.
  - intros i Hi. assert (i = 1) as -> by lia. reflexivity.
  - reflexivity.
Defined.

(** The scenario in numbers: out of stock at $50 (invalid, high), then in
    stock at $50 (valid): the second answer after one sleep of 2000 ms. *)
Example priced_then_valid_run :
  fetch_product_data_with_retry default_config "6583949" 3 priced_then_valid
  = Ok (transformed default_config "6583949" "inStock" 50 (Some "Sony"),
        {| last_valid_response :=
             Some (transformed default_config "6583949" "outOfStock" 50
                     (Some "Sony"));
           product_data :=
             Some (transformed default_config "6583949" "inStock" 50
                     (Some "Sony"));
           slept := [2000] |}).
Proof. vm_compute. reflexivity. Qed.

Lemma returned_answer_is_an_attempt_answer_witness :
  exists a st i,
    fetch_product_data_with_retry default_config "6519664" 3
      priced_then_cheap_in_stock = Ok (a, st) /\
    1 <= i <= 3 /\
    fetch_product_data default_config "6519664"
      (priced_then_cheap_in_stock i) = Ok a /\
    Provider.sku a = "6519664".
Proof.
  apply (returned_answer_is_an_attempt_answer
           default_config "6519664" 3 priced_then_cheap_in_stock).
  lia.
Defined.

Lemma invalid_answer_means_exhaustion_witness :
  (forall i, 1 <= i <= 3 ->
             valid_at default_config "6569319" always_timeout i = false) /\
  len (slept after_three_timeouts) = 3 - 1.
Proof.
  apply (invalid_answer_means_exhaustion
           default_config "6569319" 3 always_timeout
           (fallback_answer default_config "6569319") after_three_timeouts).
  - lia.
  - vm_compute. reflexivity.
  - reflexivity.
Defined.

Lemma exhausted_fetcher_returns_the_best_seen_witness :
  ((exists i,
       1 <= i <= 3 /\
       (0 < price (lookup default_config "6519664"
                     priced_then_cheap_in_stock i))%Q) ->
   (0 < price (transformed default_config "6519664" "inStock" 3
                 (Some "Sony")))%Q) /\
  ((exists i,
       1 <= i <= 3 /\
       availability (lookup default_config "6519664"
                       priced_then_cheap_in_stock i) = "inStock") ->
   availability (transformed default_config "6519664" "inStock" 3
                   (Some "Sony")) = "inStock").
Proof.
  eapply (exhausted_fetcher_returns_the_best_seen
            default_config "6519664" 3 priced_then_cheap_in_stock).
  - lia.
  - vm_compute. reflexivity.
  - intros i Hi.
    assert (i = 1 \/ i = 2 \/ i = 3) as [ -> | [ -> | -> ] ] by lia;
      reflexivity.
Defined.

Lemma persistent_transport_failure_gives_the_fallback_witness :
  exists st,
    fetch_product_data_with_retry default_config "6569319" 3 always_timeout
    = Ok (fallback_answer default_config "6569319", st) /\
    slept st = map (fun i => 1500 * i) (range2 1 3).
Proof.
  apply (persistent_transport_failure_gives_the_fallback
           default_config "6569319" 3 always_timeout).
  - lia.
  - intros i _. now left.
Defined.

End FetcherRuns.

(* ================================================================== *)
(** ** The report of a run *)
(* ================================================================== *)

Module WriterAndReport.

Import Py Provider ProviderFacts.

Lemma count_if_partition (l : list WriteResult) :
  count_if (fun r => is_status updated r || is_status no_update r)%bool l
  + count_if (is_status failed) l = Provider.len l /\
  count_if (is_status updated) l
  <= count_if (fun r => is_status updated r || is_status no_update r)%bool l /\
  0 <= count_if (is_status updated) l /\
  0 <= count_if (is_status failed) l.
Proof.
  unfold count_if, Provider.len.
  induction l as [|r l IH]; [cbn; lia|].
  unfold is_status in *. cbn [filter List.length].
  destruct (status r); cbn [orb List.length]; lia.
Qed.

(** X10.  Whatever the sizes and whatever the API and the data base do, a
    report that [process_products] returns is consistent: every result is a
    success or a failure, so successes plus failures make the total; the
    updated ones are among the successes; the total is the number of
    results. *)
Theorem process_products_report_adds_up (self : Config)
    (remote : string -> Z -> HttpResult)
    (as_completed : forall A : Type, list A -> list A)
    (db : nat -> DbBehaviour) (batch_size max_concurrent : Z)
    (skus : list string) (report : Report) (evs : list Event) :
  process_products self remote as_completed db batch_size max_concurrent skus
  = Ok (report, evs) ->
  success_count report + failed_count report = total_processed report /\
  0 <= updated_count report <= success_count report /\
  0 <= failed_count report /\
  total_processed report = Provider.len (results report).
Proof.
  unfold process_products.
  destruct (range 0 (Provider.len skus) batch_size) as [starts|e];
    [|discriminate].
  cbn [bind].
  destruct (batch_loop _ _ _ _ _ _ _ _ _) as [st|e]; [|discriminate].
  cbn [bind]. intros [= <- _].
  cbn [success_count failed_count updated_count total_processed results].
  destruct (count_if_partition (results_so_far st)) as (H1 & H2 & H3 & H4).
  repeat split; assumption.
Qed.

(** The run of [test_python_provider]'s call against an API that never
    answers and a data base without rows. *)
Definition sample_run : Exc (Report * list Event) :=
  process_products default_config (fun _ _ => HTimeout) (fun A l => rev l)
    (fun _ => db_without_rows) 4 3 test_skus.

Definition sample_report : Report :=
  match sample_run with
  | Ok (report, _) => report
  | Raise _ =>
      {| total_processed := 0; success_count := 0; updated_count := 0;
         failed_count := 0; results := [] |}
  end.

Definition sample_events : list Event :=
  match sample_run with
  | Ok (_, evs) => evs
  | Raise _ => []
  end.

Lemma process_products_report_adds_up_witness :
  success_count sample_report + failed_count sample_report
  = total_processed sample_report /\
  0 <= updated_count sample_report <= success_count sample_report /\
  0 <= failed_count sample_report /\
  total_processed sample_report = Provider.len (results sample_report).
Proof.
  apply (process_products_report_adds_up
           default_config (fun _ _ => HTimeout) (fun A l => rev l)
           (fun _ => db_without_rows) 4 3 test_skus
           sample_report sample_events).
  vm_compute. reflexivity.
Defined.

End WriterAndReport.

(* ================================================================== *)
(** ** The sizes of the batch runner *)
(* ================================================================== *)

Module BatchSizes.

Import Py Provider ProviderFacts.

Definition empty_report : Report :=
  {| total_processed := 0;
     success_count := 0;
     updated_count := 0;
     failed_count := 0;
     results := [] |}.

(** A negative step from 0 up to a length gives no index at all. *)
Lemma range_negative_step (n step : Z) :
  0 <= n -> step < 0 -> range 0 n step = Ok [].
Proof.
  intros Hn Hs. unfold range.
  destruct (step =? 0) eqn:E0; [apply Z.eqb_eq in E0; lia|].
  destruct (0 <? step) eqn:E1; [apply Z.ltb_lt in E1; lia|].
  assert ((0 - n - step - 1) / - step < 1)
    by (apply Z.div_lt_upper_bound; lia).
  replace (Z.to_nat ((0 - n - step - 1) / - step)) with 0%nat by lia.
  reflexivity.
Qed.

(** A positive step over a non-empty list starts at index 0. *)
Lemma range_positive_step (n step : Z) :
  0 < n -> 0 < step -> exists rest, range 0 n step = Ok (0 :: rest).
Proof.
  intros Hn Hs. unfold range.
  destruct (step =? 0) eqn:E0; [apply Z.eqb_eq in E0; lia|].
  destruct (0 <? step) eqn:E1; [|apply Z.ltb_ge in E1; lia].
  assert (1 <= (n - 0 + step - 1) / step)
    by (apply Z.div_le_lower_bound; lia).
  destruct (Z.to_nat ((n - 0 + step - 1) / step)) as [|k] eqn:Ek; [lia|].
  cbn [seq map]. eexists. reflexivity.
Qed.

Section Sizes.

Variable self : Config.
Variable remote : string -> Z -> HttpResult.
Variable as_completed : forall A : Type, list A -> list A.
Variable db : nat -> DbBehaviour.

Lemma len_nonneg {A} (l : list A) : 0 <= Provider.len l.
Proof. unfold Provider.len. lia. Qed.

Lemma batch_loop_negative_concurrency (batch_size max_concurrent : Z)
    (skus : list string) (starts : list Z) :
  max_concurrent < 0 ->
  forall st,
  exists st',
    batch_loop self remote as_completed db batch_size max_concurrent
      skus starts st = Ok st' /\
    results_so_far st' = results_so_far st /\
    reconciled_skus (events st') = reconciled_skus (events st).
Proof.
  intro Hc. induction starts as [|i rest IH]; intro st.
  - exists st. repeat split.
  - cbn [batch_loop].
    rewrite range_negative_step by (auto using len_nonneg).
    cbn [bind window_loop].
    destruct (IH (if i + batch_size <? Provider.len skus
                  then sleep 2 st else st)) as (st' & -> & Hr & He).
    exists st'. split; [reflexivity|]. rewrite Hr, He.
    destruct (i + batch_size <? Provider.len skus); cbn; [|auto].
    rewrite reconciled_skus_app. cbn. now rewrite app_nil_r.
Qed.

(** X11.  Outside the positive sizes [process_products] does not process
    the list: a batch size of 0 raises for every list (an empty one too); a
    negative batch size returns an empty report without touching anything; a
    concurrency limit of 0 raises as soon as there is a SKU; a negative one
    returns a report of zero results and writes nothing, however many SKUs
    were given. *)
Theorem process_products_outside_positive_sizes (skus : list string) :
  (forall max_concurrent,
      raises (process_products self remote as_completed db 0 max_concurrent
                skus) = true) /\
  (forall batch_size max_concurrent,
      batch_size < 0 ->
      process_products self remote as_completed db batch_size max_concurrent
        skus = Ok (empty_report, [])) /\
  (forall batch_size,
      0 < batch_size -> skus <> [] ->
      raises (process_products self remote as_completed db batch_size 0
                skus) = true) /\
  (forall batch_size max_concurrent,
      0 < batch_size -> max_concurrent < 0 ->
      exists report evs,
        process_products self remote as_completed db batch_size
          max_concurrent skus = Ok (report, evs) /\
        total_processed report = 0 /\
        results report = [] /\
        reconciled_skus evs = []).
Proof.
  split; [|split; [|split]].
  - reflexivity.
  - intros B C HB. unfold process_products.
    rewrite range_negative_step by (auto using len_nonneg). reflexivity.
  - intros B HB Hne. unfold process_products.
    destruct (range_positive_step (Provider.len skus) B) as [rest ->];
      [destruct skus; [congruence|unfold Provider.len; cbn; lia]|exact HB|].
    reflexivity.
  - intros B C HB HC. unfold process_products.
    destruct (range 0 (Provider.len skus) B) as [starts|e] eqn:Er.
    2:{ unfold range in Er.
        destruct (B =? 0) eqn:E0; [apply Z.eqb_eq in E0; lia|discriminate]. }
    cbn [bind].
    destruct (batch_loop_negative_concurrency B C skus starts HC
                {| results_so_far := []; db_calls := 0%nat; events := [] |})
      as (st' & -> & Hr & He).
    cbn [bind]. do 2 eexists. split; [reflexivity|].
    cbn [total_processed results results_so_far events] in *.
    rewrite Hr, He. repeat split.
Qed.

End Sizes.

(** X12.  The groups the two loops cut a list into, for a positive size:
    none is empty and none has more than [size] elements (so a window never
    holds more SKUs than the concurrency limit), and there are
    ceil(len / size) of them. *)
Theorem chunks_are_bounded {A} (l : list A) (size : Z) :
  0 < size ->
  Forall (fun c => 1 <= Provider.len c <= size) (chunks l size) /\
  Provider.len (chunks l size) = (Provider.len l + size - 1) / size.
Proof.
  intro Hs. unfold chunks, range.
  destruct (size =? 0) eqn:E0; [apply Z.eqb_eq in E0; lia|].
  destruct (0 <? size) eqn:E1; [|apply Z.ltb_ge in E1; lia].
  set (n := Provider.len l).
  assert (Hn : 0 <= n) by (subst n; unfold Provider.len; lia).
  set (cnt := (n - 0 + size - 1) / size).
  assert (Hcnt : 0 <= cnt) by (apply Z.div_pos; lia).
  assert (Hlow : (cnt - 1) * size < n).
  { pose proof (Z.div_mod (n - 0 + size - 1) size) as Hd.
    pose proof (Z.mod_pos_bound (n - 0 + size - 1) size Hs).
    fold cnt in Hd. nia. }
  split.
  - apply Forall_forall. intros c Hc.
    apply in_map_iff in Hc as (i & <- & Hi).
    apply in_map_iff in Hi as (k & <- & Hk). apply in_seq in Hk.
    rewrite slice_firstn_skipn by lia.
    unfold Provider.len. rewrite length_firstn, length_skipn.
    assert (Z.of_nat k <= cnt - 1) by lia.
    assert (Z.of_nat k * size < n) by nia.
    unfold Provider.len in n. subst n. lia.
  - unfold Provider.len at 1. rewrite !length_map, length_seq.
    rewrite Z2Nat.id by exact Hcnt. subst cnt n. f_equal. lia.
Qed.

Lemma chunks_are_bounded_witness :
  Forall (fun c => 1 <= Provider.len c <= 3)
         (chunks ["6569319"; "6583949"; "6577453"; "6529313"] 3) /\
  Provider.len (chunks ["6569319"; "6583949"; "6577453"; "6529313"] 3)
  = (Provider.len ["6569319"; "6583949"; "6577453"; "6529313"] + 3 - 1) / 3.
Proof.
  apply (chunks_are_bounded ["6569319"; "6583949"; "6577453"; "6529313"] 3).
  lia.
Defined.

End BatchSizes.

(* ================================================================== *)
(** ** The feed document and the two retry loops of phase 2 *)
(* ================================================================== *)

Module FeedLoops.

Import Py Phase2.

(** The row a message was built from. *)
Definition row_of (m : Message) : FeedRow :=
  (sku m, lead_time_to_ship_max_days m, quantity m).

(** The status body with which a poll ends the polling, if it does: a 200
    answer whose body decodes and reports DONE, CANCELLED or FATAL. *)
Definition final_status (resp : Http FeedStatus) : option FeedStatus :=
  match resp with
  | HttpResponse status_code _ (Ok feed_status) =>
      if (status_code =? 200)
         && (status_is (processingStatus feed_status) "DONE"
             || status_is (processingStatus feed_status) "CANCELLED"
             || status_is (processingStatus feed_status) "FATAL")
      then Some feed_status else None
  | _ => None
  end.

Lemma build_messages_ids (data : list FeedRow) :
  forall i,
    map messageId (build_messages i data)
    = range2 i (i + len data).
Proof.
  induction data as [|[[s h] q] rest IH]; intro i.
  - unfold len. cbn. now rewrite ProviderFacts.range2_nil by lia.
  - cbn [build_messages map messageId].
    rewrite ProviderFacts.range2_cons
      by (unfold len; cbn [List.length]; lia).
    rewrite IH. do 2 f_equal. unfold len. cbn [List.length]. lia.
Qed.

Lemma build_messages_rows (data : list FeedRow) :
  forall i, map row_of (build_messages i data) = data.
Proof.
  induction data as [|[[s h] q] rest IH]; intro i; [reflexivity|].
  cbn [build_messages map]. now rewrite IH.
Qed.

Lemma build_messages_constants (data : list FeedRow) :
  forall i,
    Forall (fun m => operationType m = "PARTIAL_UPDATE" /\
                     productType m = "PRODUCT" /\
                     fulfillment_channel_code m = "DEFAULT")
           (build_messages i data).
Proof.
  induction data as [|[[s h] q] rest IH]; intro i; constructor; auto.
Qed.

(** X13.  The feed document keeps the rows: its messages, read back as
    (sku, lead time, quantity), are the rows in their order; the message ids
    are 1, 2, ..., n; every message is a PARTIAL_UPDATE of a PRODUCT on the
    DEFAULT channel; and a feed that [create_inventory_feed_phase2] returns
    is this document, whatever the validation is. *)
Theorem feed_document_keeps_the_rows (AMAZON_CONFIG : AmazonConfig)
    (data : list FeedRow) :
  map row_of (messages (build_feed AMAZON_CONFIG data)) = data /\
  map messageId (messages (build_feed AMAZON_CONFIG data))
  = range2 1 (len data + 1) /\
  Forall (fun m => operationType m = "PARTIAL_UPDATE" /\
                   productType m = "PRODUCT" /\
                   fulfillment_channel_code m = "DEFAULT")
         (messages (build_feed AMAZON_CONFIG data)) /\
  sellerId (header (build_feed AMAZON_CONFIG data))
  = seller_id AMAZON_CONFIG /\
  forall (validar_feed_json : Feed -> Exc bool) feed,
    create_inventory_feed_phase2 validar_feed_json AMAZON_CONFIG data
    = Some feed ->
    feed = build_feed AMAZON_CONFIG data /\
    validar_feed_json feed = Ok true.
Proof.
  cbn [build_feed messages header sellerId].
  split; [apply build_messages_rows|].
  split; [rewrite build_messages_ids; f_equal; lia|].
  split; [apply build_messages_constants|].
  split; [reflexivity|].
  intros v feed. unfold create_inventory_feed_phase2.
  destruct (v (build_feed AMAZON_CONFIG data)) as [[|]|e] eqn:E;
    try discriminate.
  intros [= <-]. split; [reflexivity|exact E].
Qed.

Section Polling.

Variable RETRY_DELAY_SECONDS STATUS_CHECK_INTERVAL : Z.
Variable responses : Z -> Http FeedStatus.
Variable max_attempts : Z.

#[local] Abbreviation poll :=
  (poll_loop RETRY_DELAY_SECONDS STATUS_CHECK_INTERVAL responses).

Lemma poll_body_cases (resp : Http FeedStatus) :
  match final_status resp with
  | Some feed_status =>
      poll_body RETRY_DELAY_SECONDS STATUS_CHECK_INTERVAL resp
      = PollReturn feed_status
  | None =>
      exists seconds,
        poll_body RETRY_DELAY_SECONDS STATUS_CHECK_INTERVAL resp
        = PollSleep seconds
  end.
Proof.
  unfold final_status, poll_body, poll_try.
  destruct resp as [e|code h json]; [eauto|].
  destruct json as [fs|e]; cbn [bind].
  - destruct (code =? 200); cbn [andb].
    + destruct (status_is (processingStatus fs) "DONE"); cbn [orb];
        [reflexivity|].
      destruct (status_is (processingStatus fs) "CANCELLED"
                || status_is (processingStatus fs) "FATAL")%bool; eauto.
    + destruct (code =? 429); [|eauto].
      destruct (header_int h RETRY_DELAY_SECONDS) as [d|e]; cbn [bind];
        [|eauto].
      destruct (checked_sleep d); cbn [bind]; eauto.
  - destruct (code =? 200); [eauto|].
    destruct (code =? 429); [|eauto].
    destruct (header_int h RETRY_DELAY_SECONDS) as [d|e']; cbn [bind];
      [|eauto].
    destruct (checked_sleep d); cbn [bind]; eauto.
Qed.

(** The polling from attempt [k] on, while no poll is final. *)
Lemma poll_loop_sleeps (m : nat) :
  forall k j slept,
    Z.of_nat m = j - k ->
    j <= max_attempts + 1 ->
    (forall i, k <= i < j -> final_status (responses i) = None) ->
    exists more,
      poll (range2 k (max_attempts + 1)) slept
      = poll (range2 j (max_attempts + 1)) (slept ++ more) /\
      len more = j - k.
Proof.
  induction m as [|m IH]; intros k j slept Hm Hj Hnone.
  - assert (j = k) as -> by lia. exists []. rewrite app_nil_r.
    split; [reflexivity|]. unfold len. cbn. lia.
  - rewrite (ProviderFacts.range2_cons k) by lia. cbn [poll_loop].
    pose proof (poll_body_cases (responses k)) as Hb.
    rewrite Hnone in Hb by lia. destruct Hb as [s ->].
    destruct (IH (k + 1) j (slept ++ [s]) ltac:(lia) Hj) as (more & -> & Hl).
    { intros i Hi. apply Hnone. lia. }
    exists (s :: more). rewrite <- app_assoc. split; [reflexivity|].
    unfold len in *. cbn [List.length]. lia.
Qed.

(** X14.  For a check interval that [time.sleep] accepts, the polling ends
    with the first poll that answers 200 with a terminal status (DONE,
    CANCELLED or FATAL): that status body is returned, after exactly one
    sleep per earlier poll; any earlier answer (another status, a rate
    limit, an exception, a body that does not decode) has only cost an
    attempt. *)
Theorem verificar_status_feed_returns_first_terminal (j : Z)
    (feed_status : FeedStatus) :
  0 <= STATUS_CHECK_INTERVAL ->
  1 <= j <= max_attempts ->
  (forall i, 1 <= i < j -> final_status (responses i) = None) ->
  final_status (responses j) = Some feed_status ->
  exists slept,
    verificar_status_feed RETRY_DELAY_SECONDS STATUS_CHECK_INTERVAL
      responses max_attempts = (Some feed_status, slept) /\
    len slept = j - 1.
Proof.
  intros _ Hj Hnone Hfinal. unfold verificar_status_feed.
  destruct (poll_loop_sleeps (Z.to_nat (j - 1)) 1 j [] ltac:(lia) ltac:(lia)
              Hnone) as (more & -> & Hl).
  rewrite (ProviderFacts.range2_cons j) by lia. cbn [poll_loop].
  pose proof (poll_body_cases (responses j)) as Hb.
  rewrite Hfinal in Hb. rewrite Hb.
  exists more. split; [reflexivity|exact Hl].
Qed.

(** X15.  For a check interval that [time.sleep] accepts: if none of the
    first [max_attempts] polls answers 200 with a terminal status, the
    polling gives up with [None] after having slept after every poll, the
    last one included; a poll that was rate-limited (429) has used up an
    attempt like any other. *)
Theorem verificar_status_feed_times_out :
  0 <= STATUS_CHECK_INTERVAL ->
  0 <= max_attempts ->
  (forall i, 1 <= i <= max_attempts -> final_status (responses i) = None) ->
  exists slept,
    verificar_status_feed RETRY_DELAY_SECONDS STATUS_CHECK_INTERVAL
      responses max_attempts = (None, slept) /\
    len slept = max_attempts.
Proof.
  intros _ Hmax Hnone. unfold verificar_status_feed.
  destruct (poll_loop_sleeps (Z.to_nat max_attempts) 1 (max_attempts + 1) []
              ltac:(lia) ltac:(lia)) as (more & -> & Hl).
  { intros i Hi. apply Hnone. lia. }
  rewrite ProviderFacts.range2_nil by lia. cbn [poll_loop].
  exists more. split; [reflexivity|]. rewrite Hl. lia.
Qed.

End Polling.

Section Submitting.

Variable MAX_RETRIES RETRY_DELAY_SECONDS : Z.
Variable responses : Z -> Http (option string).

#[local] Abbreviation submit :=
  (submit_loop MAX_RETRIES RETRY_DELAY_SECONDS responses).

Lemma truthy_not_empty (s : option string) (id : string) :
  truthy s = Some id -> id <> "".
Proof.
  unfold truthy. destruct s as [x|]; [|discriminate].
  destruct (String.eqb x "") eqn:E; [discriminate|].
  intros [= <-]. now apply String.eqb_neq.
Qed.

(** How one iteration of [enviar_feed] ends: it returns (a feed id only
    from a 202 answer that carries one), or it goes on after at most one
    sleep, and without any sleep when it was the last attempt. *)
Lemma submit_step_cases (attempt : Z) :
  (exists r,
      try_except (submit_try MAX_RETRIES attempt (responses attempt))
                 (submit_except MAX_RETRIES RETRY_DELAY_SECONDS attempt)
      = Ok (SubmitReturn r) /\
      forall id, r = Some id ->
                 exists h fid,
                   responses attempt = HttpResponse 202 h (Ok fid) /\
                   truthy fid = Some id) \/
  (exists s,
      try_except (submit_try MAX_RETRIES attempt (responses attempt))
                 (submit_except MAX_RETRIES RETRY_DELAY_SECONDS attempt)
      = Ok (SubmitContinue s) /\
      len s <= 1 /\
      (MAX_RETRIES - 1 <= attempt -> s = [])).
Proof.
  assert (Hexc : forall e,
             (exists r,
                 submit_except MAX_RETRIES RETRY_DELAY_SECONDS attempt e
                 = Ok (SubmitReturn r) /\
                 forall id, r = Some id ->
                            exists h fid,
                              responses attempt = HttpResponse 202 h (Ok fid) /\
                              truthy fid = Some id) \/
             (exists s,
                 submit_except MAX_RETRIES RETRY_DELAY_SECONDS attempt e
                 = Ok (SubmitContinue s) /\
                 len s <= 1 /\
                 (MAX_RETRIES - 1 <= attempt -> s = []))).
  { intro e. unfold submit_except.
    destruct (attempt <? MAX_RETRIES - 1) eqn:E.
    - apply Z.ltb_lt in E. right. eexists. split; [reflexivity|].
      split; [unfold len; cbn; lia|intro; lia].
    - left. eexists. split; [reflexivity|discriminate]. }
  unfold submit_try.
  destruct (responses attempt) as [e|code h json] eqn:Er; cbn [try_except];
    [apply Hexc|].
  destruct (code =? 202) eqn:E202.
  - apply Z.eqb_eq in E202. subst code.
    destruct json as [fid|e]; cbn [bind try_except]; [|apply Hexc].
    left. eexists. split; [reflexivity|]. intros id Hid. eauto.
  - destruct (code =? 429).
    + destruct (attempt <? MAX_RETRIES - 1) eqn:E.
      * apply Z.ltb_lt in E.
        destruct (header_int h 300) as [d|e]; cbn [bind try_except];
          [|apply Hexc].
        destruct (checked_sleep d) as [d'|e]; cbn [bind try_except];
          [|apply Hexc].
        right. eexists. split; [reflexivity|].
        split; [unfold len; cbn; lia|intro; lia].
      * cbn [try_except]. right. eexists. split; [reflexivity|].
        split; [unfold len; cbn; lia|reflexivity].
    + cbn [try_except]. left. eexists. split; [reflexivity|discriminate].
Qed.

Lemma submit_loop_bounds (m : nat) :
  forall k slept r slept',
    Z.of_nat m = MAX_RETRIES - k ->
    submit (range2 k MAX_RETRIES) slept = (r, slept') ->
    len slept' <= len slept + Z.max 0 (MAX_RETRIES - 1 - k) /\
    forall id, r = Some id ->
               exists attempt h fid,
                 k <= attempt < MAX_RETRIES /\
                 responses attempt = HttpResponse 202 h (Ok fid) /\
                 truthy fid = Some id.
Proof.
  induction m as [|m IH]; intros k slept r slept' Hm.
  - rewrite ProviderFacts.range2_nil by lia. cbn.
    intros [= <- <-]. split; [lia|discriminate].
  - rewrite ProviderFacts.range2_cons by lia. cbn [submit_loop].
    destruct (submit_step_cases k) as [(r0 & -> & Hr0)|(s & -> & Hs & Hlast)].
    + intros [= <- <-]. split; [lia|].
      intros id Hid. destruct (Hr0 id Hid) as (h & fid & E & Ht).
      exists k, h, fid. split; [lia|]. split; assumption.
    + intro Hrun.
      destruct (IH (k + 1) (slept ++ s) r slept' ltac:(lia) Hrun)
        as [Hlen Hid].
      split.
      * unfold len in *. rewrite length_app in Hlen.
        destruct (Z.le_gt_cases (MAX_RETRIES - 1) k) as [Hk|Hk];
          [rewrite (Hlast Hk) in *; cbn in *; lia|lia].
      * intros id E. destruct (Hid id E) as (a & h & fid & Ha & Hrest).
        exists a, h, fid. split; [lia|exact Hrest].
Qed.

(** X16.  [enviar_feed] makes at most [MAX_RETRIES] requests and sleeps at
    most [MAX_RETRIES - 1] times (never after its last attempt); a feed id it
    returns is never empty and is the [feedId] of a 202 answer to one of
    these requests. *)
Theorem enviar_feed_is_bounded (r : option string) (slept : list Z) :
  enviar_feed MAX_RETRIES RETRY_DELAY_SECONDS responses = (r, slept) ->
  len slept <= Z.max 0 (MAX_RETRIES - 1) /\
  forall id,
    r = Some id ->
    id <> "" /\
    exists attempt h fid,
      0 <= attempt < MAX_RETRIES /\
      responses attempt = HttpResponse 202 h (Ok fid) /\
      truthy fid = Some id.
Proof.
  unfold enviar_feed. intro Hrun.
  destruct (Z.le_gt_cases MAX_RETRIES 0) as [Hle|Hgt].
  - rewrite ProviderFacts.range2_nil in Hrun by lia. cbn in Hrun.
    injection Hrun as <- <-. split; [unfold len; cbn; lia|discriminate].
  - destruct (submit_loop_bounds (Z.to_nat MAX_RETRIES) 0 [] r slept
                ltac:(lia) Hrun) as [Hlen Hid].
    split; [unfold len in *; cbn in *; lia|].
    intros id E. destruct (Hid id E) as (a & h & fid & Ha & Hresp & Ht).
    split; [exact (truthy_not_empty _ _ Ht)|].
    exists a, h, fid. repeat split; try assumption; lia.
Qed.



End Submitting.

(** *** Concrete answers of the marketplace *)

(** Two polls still in progress, then DONE. *)
Definition done_at_third_poll : Z -> Http FeedStatus :=
  fun attempt =>
    HttpResponse 200 NoHeader
      (Ok {| processingStatus :=
               Some (if attempt <? 3 then "IN_PROGRESS" else "DONE");
             resultFeedDocumentId :=
               if attempt <? 3 then None else Some "amzn1.tortuga.out" |}).

(** Rate-limited for ever, without a [Retry-After] header. *)
Definition rate_limited {B} : Z -> Http B :=
  fun _ => HttpResponse 429 NoHeader
             (Raise (MkExn ValueError "Expecting value")).

(** Rate-limited once, then accepted. *)
Definition accepted_at_second_attempt : Z -> Http (option string) :=
  fun attempt =>
    if attempt =? 0
    then HttpResponse 429 (HeaderInt 5)
           (Raise (MkExn ValueError "Expecting value"))
    else HttpResponse 202 NoHeader (Ok (Some "50001")).

Lemma verificar_status_feed_returns_first_terminal_witness :
  exists slept,
    verificar_status_feed 60 30 done_at_third_poll 20
    = (Some {| processingStatus := Some "DONE";
               resultFeedDocumentId := Some "amzn1.tortuga.out" |}, slept) /\
    len slept = 3 - 1.
Proof.
  apply (verificar_status_feed_returns_first_terminal
           60 30 done_at_third_poll 20 3).
  - lia.
  - lia.
  - intros i Hi. assert (i = 1 \/ i = 2) as [ -> | -> ] by lia; reflexivity.
  - reflexivity.
Defined.

Lemma verificar_status_feed_times_out_witness :
  exists slept,
    verificar_status_feed 60 30 rate_limited 20 = (None, slept) /\
    len slept = 20.
Proof.
  apply (verificar_status_feed_times_out 60 30 rate_limited 20).
  - lia.
  - lia.
  - intros i _. reflexivity.
Defined.

Lemma enviar_feed_is_bounded_witness :
  len [5] <= Z.max 0 (3 - 1) /\
  forall id,
    Some "50001" = Some id ->
    id <> "" /\
    exists attempt h fid,
      0 <= attempt < 3 /\
      accepted_at_second_attempt attempt = HttpResponse 202 h (Ok fid) /\
      truthy fid = Some id.
Proof.
  apply (enviar_feed_is_bounded 3 60 accepted_at_second_attempt
           (Some "50001") [5]).
  reflexivity.
Defined.


End FeedLoops.

(* ================================================================== *)
(** ** The slice driver and the extraction *)
(* ================================================================== *)

Module DriverRuns.

Import Py Phase2 Phase2Facts.

(** The rows of the slices that were started, in order. *)
Definition submitted_rows (evs : list Event) : list FeedRow :=
  flat_map (fun e => match e with
                     | SliceStarted _ batch_data => batch_data
                     | _ => []
                     end) evs.

(** An event that neither starts a slice nor resets the flag. *)
Definition quiet (e : Event) : Prop :=
  match e with
  | SliceStarted _ _ | FlagReset => False
  | _ => True
  end.

Lemma quiet_slept (l : list Z) : Forall quiet (map Slept l).
Proof. induction l; constructor; [exact I|assumption]. Qed.

Lemma submitted_rows_cons (e : Event) (evs : list Event) :
  submitted_rows (e :: evs)
  = match e with
    | SliceStarted _ batch_data => batch_data
    | _ => []
    end ++ submitted_rows evs.
Proof. reflexivity. Qed.

Lemma quiet_rows (evs : list Event) :
  Forall quiet evs -> submitted_rows evs = [] /\ ~ In FlagReset evs.
Proof.
  induction 1 as [|e evs He _ [IH1 IH2]]; [split; [reflexivity|intros []]|].
  split.
  - rewrite submitted_rows_cons, IH1. destruct e; try reflexivity; destruct He.
  - intros [->|Hin]; [exact He|exact (IH2 Hin)].
Qed.

Lemma submitted_rows_app (e1 e2 : list Event) :
  submitted_rows (e1 ++ e2) = submitted_rows e1 ++ submitted_rows e2.
Proof. apply flat_map_app. Qed.

Section Driver.

Variable MAX_RETRIES RETRY_DELAY_SECONDS STATUS_CHECK_INTERVAL : Z.
Variable validar_feed_json : Feed -> Exc bool.

#[local] Abbreviation one_slice :=
  (process_slice MAX_RETRIES RETRY_DELAY_SECONDS STATUS_CHECK_INTERVAL
     validar_feed_json).
#[local] Abbreviation slices :=
  (slice_loop MAX_RETRIES RETRY_DELAY_SECONDS STATUS_CHECK_INTERVAL
     validar_feed_json).
#[local] Abbreviation run :=
  (process_in_batches MAX_RETRIES RETRY_DELAY_SECONDS STATUS_CHECK_INTERVAL
     validar_feed_json).

(** What one slice does to the outside: it is announced with its rows, and
    nothing that follows starts another slice or resets the flag. *)
Lemma process_slice_events (w : SliceWorld) (AMAZON_CONFIG : AmazonConfig)
    (batch_num : Z) (batch_data : list FeedRow) :
  exists rest,
    fst (one_slice w AMAZON_CONFIG batch_num batch_data)
    = SliceStarted batch_num batch_data :: rest /\
    Forall quiet rest.
Proof.
  unfold process_slice.
  destruct (create_inventory_feed_phase2 _ _ _);
    [|eexists; split; [reflexivity|constructor]].
  destruct (create_feed_document _);
    [|eexists; split; [reflexivity|repeat constructor]].
  destruct (upload_feed_to_s3 _ _); cbn [negb];
    [|eexists; split; [reflexivity|repeat constructor]].
  destruct (enviar_feed _ _ _) as [[feed_id|] slept1].
  2:{ eexists. split; [reflexivity|].
      constructor; [exact I|]. cbn. apply quiet_slept. }
  destruct (verificar_status_feed _ _ _ _) as [[fs|] slept2].
  2:{ eexists. split; [reflexivity|]. constructor; [exact I|].
      cbn. apply Forall_app. split; apply quiet_slept. }
  destruct (resultFeedDocumentId fs); cbn [fst];
    eexists; (split; [reflexivity|]); cbn;
    repeat first [ apply quiet_slept
                 | apply Forall_nil
                 | apply Forall_cons; [exact I|]
                 | apply Forall_app; split ].
Qed.

(** The rows of a slice, as line 326-328 cut them. *)
Definition slice_of (data : list FeedRow) (batch_size batch_num : Z)
  : list FeedRow :=
  slice data ((batch_num - 1) * batch_size)
        (Z.min (batch_num * batch_size) (len data)).

Lemma slice_loop_events (w : World) (AMAZON_CONFIG : AmazonConfig)
    (data : list FeedRow) (batch_size : Z) (batch_nums : list Z) :
  forall evs success,
  exists more,
    fst (slices w AMAZON_CONFIG data batch_size batch_nums evs success)
    = evs ++ more /\
    submitted_rows more
    = List.concat (map (slice_of data batch_size) batch_nums) /\
    ~ In FlagReset more.
Proof.
  induction batch_nums as [|batch_num rest IH]; intros evs success.
  - exists []. cbn. rewrite app_nil_r. repeat split. intros [].
  - cbn [slice_loop]. fold (slice_of data batch_size batch_num).
    destruct (process_slice_events (slice_world w batch_num) AMAZON_CONFIG
                batch_num (slice_of data batch_size batch_num))
      as (quiet_rest & Hev & Hq).
    destruct (one_slice _ _ _ _) as [evs' ok]. cbn [fst] in Hev. subst evs'.
    destruct (IH (evs ++ SliceStarted batch_num
                           (slice_of data batch_size batch_num)
                         :: quiet_rest)
                 (if ok then success else false)) as (more & -> & Hrows & Hno).
    destruct (quiet_rows _ Hq) as [Hq1 Hq2].
    eexists. split; [rewrite <- app_assoc; reflexivity|].
    split.
    + cbn [app map List.concat].
      rewrite submitted_rows_cons, submitted_rows_app, Hq1, Hrows.
      reflexivity.
    + cbn [app]. intros [H|H]; [discriminate|].
      apply in_app_or in H as [H|H]; auto.
Qed.

(** The slices of a positive size make up the list. *)
Lemma slices_make_up_the_data (data : list FeedRow) (batch_size : Z) :
  0 < batch_size ->
  List.concat
    (map (slice_of data batch_size)
         (range2 1 ((len data + batch_size - 1) / batch_size + 1)))
  = data.
Proof.
  intro Hs. unfold range2.
  set (n := len data).
  assert (Hn : 0 <= n) by (subst n; unfold len; lia).
  set (cnt := (n + batch_size - 1) / batch_size).
  assert (Hcnt : 0 <= cnt) by (apply Z.div_pos; lia).
  replace (cnt + 1 - 1) with cnt by lia.
  rewrite map_map.
  rewrite (map_ext _ (fun k => firstn (Z.to_nat batch_size)
                                 (skipn (k * Z.to_nat batch_size) data))).
  - rewrite ProviderFacts.concat_firstn_skipn. apply firstn_all2.
    assert (n <= cnt * batch_size).
    { pose proof (Z.div_mod (n + batch_size - 1) batch_size) as Hd.
      pose proof (Z.mod_pos_bound (n + batch_size - 1) batch_size Hs).
      fold cnt in Hd. nia. }
    unfold len in n. subst n. nia.
  - intro k. unfold slice_of.
    replace (k * Z.to_nat batch_size)%nat
      with (Z.to_nat (Z.of_nat k * batch_size)) by lia.
    rewrite <- (ProviderFacts.slice_firstn_skipn data
                  (Z.of_nat k * batch_size) batch_size) by lia.
    replace (1 + Z.of_nat k - 1) with (Z.of_nat k) by lia.
    unfold slice, slice_index. fold n.
    destruct (Z.of_nat k * batch_size <? 0) eqn:E1;
      [apply Z.ltb_lt in E1; lia|].
    destruct (Z.min ((1 + Z.of_nat k) * batch_size) n <? 0) eqn:E2;
      [apply Z.ltb_lt in E2; lia|].
    destruct (Z.of_nat k * batch_size + batch_size <? 0) eqn:E3;
      [apply Z.ltb_lt in E3; lia|].
    do 2 f_equal. subst n. unfold len. lia.
Qed.

(** X18.  With a positive batch size, an access token and waiting times
    that [time.sleep] accepts, the slices that [process_in_batches] starts
    are numbered 1, 2, ..., ceil(n / size) and their rows, put one after the
    other, are the rows it was given: every row goes into exactly one slice,
    in the order of the list, whatever the marketplace answers for the
    slices. *)
Theorem process_in_batches_submits_every_row_once (w : World)
    (AMAZON_CONFIG : AmazonConfig) (data : list FeedRow) (batch_size : Z) :
  0 <= RETRY_DELAY_SECONDS ->
  0 <= STATUS_CHECK_INTERVAL ->
  0 < batch_size ->
  data <> [] ->
  fst (get_sp_api_access_token w AMAZON_CONFIG) <> None ->
  submitted_rows (fst (run w AMAZON_CONFIG data batch_size)) = data /\
  started_slices (fst (run w AMAZON_CONFIG data batch_size))
  = range2 1 ((len data + batch_size - 1) / batch_size + 1).
Proof.
  intros _ _ Hs Hdata Htoken. unfold process_in_batches.
  destruct data as [|d0 rest]; [congruence|].
  destruct (batch_size =? 0) eqn:E0; [apply Z.eqb_eq in E0; lia|].
  destruct (get_sp_api_access_token w AMAZON_CONFIG) as [[token|] cfg];
    [|cbn in Htoken; congruence].
  set (data := d0 :: rest) in *.
  set (nums := range2 1 ((len data + batch_size - 1) / batch_size + 1)).
  destruct (slice_loop_events w cfg data batch_size nums [] true)
    as (more & Hev & Hrows & Hno).
  pose proof (slice_loop_runs_every_slice MAX_RETRIES RETRY_DELAY_SECONDS
                STATUS_CHECK_INTERVAL validar_feed_json w cfg data batch_size
                nums [] true) as [Hstarted _].
  destruct (slices w cfg data batch_size nums [] true) as [evs success].
  cbn [fst app] in Hev, Hstarted. subst evs.
  unfold nums in *.
  rewrite (slices_make_up_the_data data batch_size Hs) in Hrows.
  assert (Hreset : forall evs' r,
             reset_updated_flag (reset_db w) = (evs', r) ->
             submitted_rows evs' = [] /\ started_slices evs' = []).
  { unfold reset_updated_flag.
    destruct (connection (reset_db w)); cbn [negb];
      [|intros ? ? [= <- _]; split; reflexivity].
    destruct (execute (reset_db w)); intros ? ? [= <- _]; split; reflexivity. }
  destruct success.
  - destruct (reset_updated_flag (reset_db w)) as [evs' r] eqn:Er.
    destruct (Hreset _ _ eq_refl) as [H1 H2]. cbn [fst].
    rewrite submitted_rows_app, started_slices_app, H1, H2, !app_nil_r.
    split; [exact Hrows|exact Hstarted].
  - cbn [fst]. split; [exact Hrows|exact Hstarted].
Qed.

(** X19.  The update flag is reset only by a run that did not fail: a run
    that returns [False] has not reset it, and no slice resets it.  The
    outcome of the reset itself is not looked at: a run that returns [True]
    has reset the flag exactly when a connection was available and the
    UPDATE went through, so [True] does not tell that the rows are no longer
    pending. *)
Theorem flag_reset_only_after_success (w : World)
    (AMAZON_CONFIG : AmazonConfig) (data : list FeedRow) (batch_size : Z) :
  (snd (run w AMAZON_CONFIG data batch_size) = Ok false ->
   ~ In FlagReset (fst (run w AMAZON_CONFIG data batch_size))) /\
  (snd (run w AMAZON_CONFIG data batch_size) = Ok true ->
   (In FlagReset (fst (run w AMAZON_CONFIG data batch_size)) <->
    connection (reset_db w) = true /\
    exists u, execute (reset_db w) = Ok u)).
Proof.
  unfold process_in_batches.
  destruct data as [|d0 rest];
    [split; [intros _ []|discriminate]|].
  destruct (batch_size =? 0); [split; discriminate|].
  destruct (get_sp_api_access_token w AMAZON_CONFIG) as [[token|] cfg];
    [|split; [intros _ []|discriminate]].
  set (data := d0 :: rest).
  set (nums := range2 1 ((len data + batch_size - 1) / batch_size + 1)).
  destruct (slice_loop_events w cfg data batch_size nums [] true)
    as (more & Hev & _ & Hno).
  destruct (slices w cfg data batch_size nums [] true) as [evs success].
  cbn [fst app] in Hev. subst evs.
  destruct success; [|split; [intros _; exact Hno|discriminate]].
  unfold reset_updated_flag.
  destruct (connection (reset_db w)); cbn [negb].
  - destruct (execute (reset_db w)) as [u|e];
      destruct (release (reset_db w)) as [[]|e']; cbn [fst snd bind];
      split; try discriminate; intros _.
    + split; [intros _; eauto|intros _; apply in_or_app; right; now left].
    + split; [intros H|intros [_ [u H]]; discriminate].
      rewrite app_nil_r in H. contradiction.
  - cbn [fst snd bind]. split; [discriminate|]. intros _.
    rewrite app_nil_r. split; [contradiction|intros [H _]; discriminate].
Qed.

(** X20.  The batch size outside the positive numbers.  With a batch size
    of 0 the run raises before anything is sent.  With a negative batch size
    and at least two rows the number of slices is zero: nothing is
    submitted, and yet the run goes on to reset the flag and returns what a
    fully successful run returns. *)
Theorem process_in_batches_outside_positive_sizes (w : World)
    (AMAZON_CONFIG : AmazonConfig) (data : list FeedRow) :
  (data <> [] ->
   fst (run w AMAZON_CONFIG data 0) = [] /\
   raises (snd (run w AMAZON_CONFIG data 0)) = true) /\
  (forall batch_size,
      batch_size < 0 -> 2 <= len data ->
      fst (get_sp_api_access_token w AMAZON_CONFIG) <> None ->
      run w AMAZON_CONFIG data batch_size
      = (fst (reset_updated_flag (reset_db w)),
         _ <- snd (reset_updated_flag (reset_db w)) ;; Ok true) /\
      submitted_rows (fst (run w AMAZON_CONFIG data batch_size)) = []).
Proof.
  split.
  - intro Hd. destruct data; [congruence|]. split; reflexivity.
  - intros B HB Hlen Htoken.
    assert (Hrun : run w AMAZON_CONFIG data B
                   = (fst (reset_updated_flag (reset_db w)),
                      _ <- snd (reset_updated_flag (reset_db w)) ;; Ok true)).
    { unfold process_in_batches.
      destruct data as [|d0 rest]; [unfold len in Hlen; cbn in Hlen; lia|].
      destruct (B =? 0) eqn:E0; [apply Z.eqb_eq in E0; lia|].
      destruct (get_sp_api_access_token w AMAZON_CONFIG) as [[token|] cfg];
        [|cbn in Htoken; congruence].
      set (n := len (d0 :: rest)) in *.
      assert (Hq : (n + B - 1) / B <= 0).
      { rewrite <- Zdiv_opp_opp.
        assert (- (n + B - 1) / - B < 1)
          by (apply Z.div_lt_upper_bound; lia).
        lia. }
      rewrite ProviderFacts.range2_nil by lia. cbn [slice_loop].
      destruct (reset_updated_flag (reset_db w)) as [evs' r]. reflexivity. }
    split; [exact Hrun|]. rewrite Hrun. cbn [fst].
    unfold reset_updated_flag.
    destruct (connection (reset_db w)); cbn [negb]; [|reflexivity].
    destruct (execute (reset_db w)); reflexivity.
Qed.

(** X21.  Phase 2 reports success only for a complete run: when
    [run_phase2] returns [True] it has logged success, the extraction had
    found at least one row, every extracted row was put into a slice (in
    order, once), and for every slice the status polling returned a terminal
    status body that carries a result document. *)
Theorem run_phase2_success_is_a_complete_run (w : World) (evs : list Event)
    (log : PhaseLog) :
  run_phase2 MAX_RETRIES RETRY_DELAY_SECONDS STATUS_CHECK_INTERVAL
    validar_feed_json w = (evs, (true, log)) ->
  log = PhaseSucceeded /\
  exists data,
    execute (extract_db w) = Ok data /\
    data <> [] /\
    submitted_rows evs = data /\
    forall batch_num,
      In batch_num (started_slices evs) ->
      exists feed_status slept id,
        verificar_status_feed RETRY_DELAY_SECONDS STATUS_CHECK_INTERVAL
          (poll_responses (slice_world w batch_num)) 20
        = (Some feed_status, slept) /\
        resultFeedDocumentId feed_status = Some id /\
        (processingStatus feed_status = Some "DONE" \/
         processingStatus feed_status = Some "CANCELLED" \/
         processingStatus feed_status = Some "FATAL").
Proof.
  unfold run_phase2, main_phase2, extract_updated_data_phase2.
  destruct (amazon_credentials w) as [creds|] eqn:Ec; [|discriminate].
  destruct (connection (extract_db w)); cbn [negb]; [|discriminate].
  destruct (execute (extract_db w)) as [[|d0 rest]|e] eqn:Ex;
    destruct (release (extract_db w)) as [[]|e']; cbn [bind];
    try discriminate.
  set (data := d0 :: rest).
  unfold process_in_batches. change (9990 =? 0) with false. cbv iota.
  fold data.
  destruct (get_sp_api_access_token w creds) as [[token|] cfg];
    [|discriminate].
  set (nums := range2 1 ((len data + 9990 - 1) / 9990 + 1)).
  destruct (slice_loop_events w cfg data 9990 nums [] true)
    as (more & Hev & Hrows & Hno).
  pose proof (slice_loop_runs_every_slice MAX_RETRIES RETRY_DELAY_SECONDS
                STATUS_CHECK_INTERVAL validar_feed_json w cfg data 9990
                nums [] true) as [Hstarted Hdone].
  destruct (slices w cfg data 9990 nums [] true) as [evs0 success].
  cbn [fst snd app] in Hev, Hstarted, Hdone. subst evs0.
  unfold nums in Hrows.
  rewrite (slices_make_up_the_data data 9990 ltac:(lia)) in Hrows.
  destruct success; [|discriminate].
  destruct (Hdone eq_refl) as [_ Hall].
  unfold reset_updated_flag.
  assert (Hfinish : forall evs',
             submitted_rows evs' = [] -> started_slices evs' = [] ->
             submitted_rows (more ++ evs') = data /\
             forall b, In b (started_slices (more ++ evs')) -> In b nums).
  { intros evs' H1 H2.
    rewrite submitted_rows_app, started_slices_app, H1, H2, !app_nil_r.
    split; [exact Hrows|]. intro b. now rewrite Hstarted. }
  assert (Hgoal : forall evs',
             submitted_rows evs' = [] -> started_slices evs' = [] ->
             more ++ evs' = evs ->
             exists data0,
               Ok data = Ok data0 /\ data0 <> [] /\
               submitted_rows evs = data0 /\
               forall batch_num,
                 In batch_num (started_slices evs) ->
                 exists feed_status slept id,
                   verificar_status_feed RETRY_DELAY_SECONDS
                     STATUS_CHECK_INTERVAL
                     (poll_responses (slice_world w batch_num)) 20
                   = (Some feed_status, slept) /\
                   resultFeedDocumentId feed_status = Some id /\
                   (processingStatus feed_status = Some "DONE" \/
                    processingStatus feed_status = Some "CANCELLED" \/
                    processingStatus feed_status = Some "FATAL")).
  { intros evs' H1 H2 <-. destruct (Hfinish evs' H1 H2) as [Hr Hs].
    exists data. split; [reflexivity|]. split; [discriminate|].
    split; [exact Hr|]. intros b Hb.
    exact (process_slice_done _ _ _ _ _ _ _ _ (Hall b (Hs b Hb))). }
  destruct (connection (reset_db w)); cbn [negb].
  - destruct (execute (reset_db w)) as [u|e];
      destruct (release (reset_db w)) as [[]|e'']; cbn [bind];
      try discriminate;
      intros [= Hevs <-]; (split; [reflexivity|]);
      apply (fun H1 H2 => Hgoal _ H1 H2 Hevs); reflexivity.
  - cbn [bind]. intros [= Hevs <-]. split; [reflexivity|].
    apply (fun H1 H2 => Hgoal _ H1 H2 Hevs); reflexivity.
Qed.

End Driver.

(** X22.  What the extraction tells its caller: a list it returns is never
    empty and is what the query gave; without a connection it returns
    [None]; a query that raised and a query without rows both give [None];
    and when returning the connection raises, the exception replaces the
    result, rows or no rows. *)
Theorem extraction_outcomes (db : DbSession (list FeedRow)) :
  (forall rows,
      extract_updated_data_phase2 db = Ok (Some rows) ->
      rows <> [] /\ connection db = true /\ execute db = Ok rows /\
      release db = Ok tt) /\
  (connection db = false -> extract_updated_data_phase2 db = Ok None) /\
  (connection db = true -> release db = Ok tt ->
   (forall e, execute db = Raise e ->
              extract_updated_data_phase2 db = Ok None) /\
   (execute db = Ok [] -> extract_updated_data_phase2 db = Ok None)) /\
  (forall e,
      connection db = true -> release db = Raise e ->
      extract_updated_data_phase2 db = Raise e).
Proof.
  unfold extract_updated_data_phase2.
  destruct (connection db); cbn [negb].
  - destruct (execute db) as [[|d rest]|e];
      destruct (release db) as [[]|e']; cbn [bind];
      repeat split; intros; try discriminate; try congruence;
      try reflexivity;
      match goal with
      | H : Ok (Some _) = Ok (Some _) |- _ => injection H as <-
      end; try discriminate; reflexivity.
  - repeat split; intros; try discriminate; reflexivity.
Qed.

(** *** Concrete runs of the driver *)

Definition three_rows : list FeedRow :=
  [("SEVC-6569319", 4, 20); ("SEVC-6583949", 4, 0); ("SEVC-6577453", 4, 20)].

Lemma process_in_batches_submits_every_row_once_witness :
  submitted_rows
    (fst (process_in_batches 3 60 30 accept_all (world_with three_rows "DONE")
            sample_config three_rows 2)) = three_rows /\
  started_slices
    (fst (process_in_batches 3 60 30 accept_all (world_with three_rows "DONE")
            sample_config three_rows 2))
  = range2 1 ((len three_rows + 2 - 1) / 2 + 1).
Proof.
  apply (process_in_batches_submits_every_row_once
           3 60 30 accept_all (world_with three_rows "DONE") sample_config
           three_rows 2).
  - lia.
  - lia.
  - lia.
  - discriminate.
  - discriminate.
Defined.

Lemma run_phase2_success_is_a_complete_run_witness :
  PhaseSucceeded = PhaseSucceeded /\
  exists data,
    execute (extract_db (world_with three_rows "DONE")) = Ok data /\
    data <> [] /\
    submitted_rows
      (fst (run_phase2 3 60 30 accept_all (world_with three_rows "DONE")))
    = data /\
    forall batch_num,
      In batch_num
         (started_slices
            (fst (run_phase2 3 60 30 accept_all
                    (world_with three_rows "DONE")))) ->
      exists feed_status slept id,
        verificar_status_feed 60 30
          (poll_responses
             (slice_world (world_with three_rows "DONE") batch_num)) 20
        = (Some feed_status, slept) /\
        resultFeedDocumentId feed_status = Some id /\
        (processingStatus feed_status = Some "DONE" \/
         processingStatus feed_status = Some "CANCELLED" \/
         processingStatus feed_status = Some "FATAL").
Proof.
  apply (run_phase2_success_is_a_complete_run
           3 60 30 accept_all (world_with three_rows "DONE")
           (fst (run_phase2 3 60 30 accept_all
                   (world_with three_rows "DONE")))
           PhaseSucceeded).
  vm_compute. reflexivity.
Defined.

End DriverRuns.
